(** * Bitmap-glyph conversion: extraction, sbix embedding and SVG-in-OT build

    A shallow embedding of [converter.py] and [make_svg_font.py].

    Python dictionaries keyed by glyph name or table tag are [gmap string _];
    the [strikes] dictionary of an sbix table is an association list, because
    [max] breaks ties by iteration order.  Exceptions are the [Raise] branch
    of [result].  The image codec (PIL), the rasteriser (FreeType) and base64
    are collaborators: they enter as type-class fields and record fields. *)

From Stdlib Require Import ZArith NArith List Permutation.
From Stdlib.Strings Require Import Byte.
From stdpp Require Import gmap strings list fin_maps pretty sorting.

Abbreviation bytes := (list byte).

(** ** Exceptions *)

Inductive exn : Set :=
| FT_Exception            (* freetype.FT_Exception *)
| UnidentifiedImageError  (* PIL could not decode the bytes *)
| struct_error            (* struct.unpack on a buffer of the wrong size *)
| ValueError              (* Image.frombytes on a buffer of the wrong size *)
| KeyError                (* getGlyphID on an unknown name *)
| AttributeError.         (* an attribute the object does not have *)

Inductive result (A : Type) : Type :=
| Ok (a : A)
| Raise (e : exn).
Arguments Ok {A} a.
Arguments Raise {A} e.

#[global] Instance result_bind : MBind result := λ A B k r,
  match r with
  | Ok a => k a
  | Raise e => Raise e
  end.

#[global] Instance result_fmap : FMap result := λ A B f r,
  match r with
  | Ok a => Ok (f a)
  | Raise e => Raise e
  end.

(** [try: r except Exception: v] *)
Definition except_Exception {A} (r : result A) (v : A) : A :=
  match r with
  | Ok a => a
  | Raise _ => v
  end.

(** [try: r except freetype.FT_Exception: v]; other exceptions propagate. *)
Definition except_FT_Exception {A} (r : result A) (v : A) : result A :=
  match r with
  | Raise FT_Exception => Ok v
  | _ => r
  end.

Definition is_Ok {A} (r : result A) : Prop := ∃ a, r = Ok a.

(** ** Python [bytes] primitives *)

Fixpoint startswith (sub data : bytes) : bool :=
  match sub, data with
  | [], _ => true
  | _ :: _, [] => false
  | a :: sub', b :: data' => Byte.eqb a b && startswith sub' data'
  end.

(** [data.find(sub)]: the lowest index at which [sub] occurs, [None] for -1. *)
Fixpoint bytes_find (sub data : bytes) : option nat :=
  if startswith sub data then Some 0
  else match data with
       | [] => None
       | _ :: data' => S <$> bytes_find sub data'
       end.

(** [data[i:j]] for non-negative [i], [j]: both ends are clamped. *)
Definition slice (i j : nat) (data : bytes) : bytes :=
  take (j - i) (drop i data).

(** Big-endian value of a byte string. *)
Definition be_value (b : bytes) : N :=
  fold_left (λ acc x, (acc * 256 + Byte.to_N x)%N) b 0%N.

(** [struct.unpack(">I", b)[0]]: exactly four bytes are required. *)
Definition struct_unpack_be_I (b : bytes) : result N :=
  if length b =? 4 then Ok (be_value b) else Raise struct_error.

(** [b"\x89PNG"] *)
Definition png_magic : bytes := [x89; x50; x4e; x47].

(** ** Collaborators *)

(** The image codec (PIL). *)
Class ImageCodec := {
  Image : Type;
  (** [Image.open(io.BytesIO(b)).convert("RGBA")]; [None] when PIL raises. *)
  image_open_rgba : bytes → option Image;
  (** [img.save(buf, format="PNG"); buf.getvalue()] *)
  image_save_png : Image → bytes;
  (** [Image.open(f).size] on the bytes of file [f]; [None] when PIL raises. *)
  image_size : bytes → option (N * N);
  (** [Image.frombytes("L", (w, h), buffer)]; [None] when PIL raises. *)
  image_frombytes_L : N → N → bytes → option Image;
  (** [Image.new("RGBA", (w, h), (0, 0, 0, 0))] *)
  image_new_rgba : N → N → Image;
  (** [img.putalpha(alpha)], returning the updated [img]. *)
  image_putalpha : Image → Image → Image
}.

(** [base64.b64encode(b).decode("ascii")] *)
Class Base64 := b64encode : bytes → string.

(** The bitmap FreeType leaves in [face.glyph.bitmap]. *)
Record Bitmap := mkBitmap {
  bmp_width : N;
  bmp_rows : N;
  bmp_buffer : bytes
}.

Inductive SizeRequest :=
| SelectSize (index : N)          (* face.select_size(index) *)
| PixelSizes (width height : Z).  (* face.set_pixel_sizes(width, height) *)

(** A FreeType face: the size request followed by [face.load_glyph(gid, flags)]
    either raises [FT_Exception] ([None]) or leaves a bitmap. *)
Record Face := mkFace {
  num_fixed_sizes : N;
  load_glyph : SizeRequest → nat → option Bitmap
}.

(** ** Font tables *)

(** An entry of [strike.glyphData], read by the extractor through [.data]. *)
Record SbixEntry := mkSbixEntry { entry_data : bytes }.

(** [sbixStrike.Glyph(glyphName=..., graphicType=..., ...)] *)
Record SbixGlyph := mkSbixGlyph {
  glyphName : string;
  graphicType : string;
  originOffsetX : Z;
  originOffsetY : Z;
  imageData : bytes
}.

(** An sbix strike.  Its records are in [glyphs].  [glyphData] is [None]
    when the object has no such attribute: that is every strike read from a
    font file; only [embed_sbix] sets the attribute, on the strike it builds
    (line 80). *)
Record Strike := mkStrike {
  ppem : Z;
  resolution : Z;
  glyphData : option (gmap string SbixEntry);
  glyphs : gmap string SbixGlyph
}.

(** A CBDT bitmap glyph; [getattr(g, "data", None)]. *)
Record CbdtGlyph := mkCbdtGlyph { cbdt_data : option bytes }.

(** A glyf outline. *)
Record Glyph := mkGlyph {
  numberOfContours : Z;
  endPtsOfContours : list Z;
  flags : list Z;
  coordinates : list (Z * Z);
  program : option bytes
}.

(** An entry of the SVG table's [docList]: [(svg, startGID, endGID)]. *)
Definition SVGDoc : Type := string * nat * nat.

(** A table object: its tag and the attributes the scripts read or set;
    [None] means the attribute is absent ([hasattr] is false). *)
Record Table := mkTable {
  tableTag : string;
  tbl_glyphs : option (gmap string Glyph);
  tbl_docList : option (list SVGDoc);
  tbl_strikes : option (list (Z * Strike));
  tbl_strikeData : option (list (gmap string CbdtGlyph));
  tbl_version : option Z;
  tbl_flags : option Z
}.

(** [newTable(tag)]: a fresh table object with no attribute set. *)
Definition newTable (tag : string) : Table :=
  mkTable tag None None None None None None.

Definition set_glyphs (t : Table) (g : gmap string Glyph) : Table :=
  mkTable (tableTag t) (Some g) (tbl_docList t) (tbl_strikes t)
          (tbl_strikeData t) (tbl_version t) (tbl_flags t).

Definition set_docList (t : Table) (d : list SVGDoc) : Table :=
  mkTable (tableTag t) (tbl_glyphs t) (Some d) (tbl_strikes t)
          (tbl_strikeData t) (tbl_version t) (tbl_flags t).

Definition set_strikes (t : Table) (s : list (Z * Strike)) : Table :=
  mkTable (tableTag t) (tbl_glyphs t) (tbl_docList t) (Some s)
          (tbl_strikeData t) (tbl_version t) (tbl_flags t).

Definition set_version (t : Table) (v : Z) : Table :=
  mkTable (tableTag t) (tbl_glyphs t) (tbl_docList t) (tbl_strikes t)
          (tbl_strikeData t) (Some v) (tbl_flags t).

Definition set_flags (t : Table) (f : Z) : Table :=
  mkTable (tableTag t) (tbl_glyphs t) (tbl_docList t) (tbl_strikes t)
          (tbl_strikeData t) (tbl_version t) (Some f).

(** A loaded [TTFont]: its glyph order and its tables by tag. *)
Record TTFont := mkFont {
  glyphOrder : list string;
  tables : gmap string Table
}.

(** [font[tag] = t] *)
Definition font_set (font : TTFont) (tag : string) (t : Table) : TTFont :=
  mkFont (glyphOrder font) (<[tag := t]> (tables font)).

(** [del font[tag]] *)
Definition font_del (font : TTFont) (tag : string) : TTFont :=
  mkFont (glyphOrder font) (delete tag (tables font)).

(** [tag in font] *)
Definition font_has (font : TTFont) (tag : string) : bool :=
  bool_decide (is_Some (tables font !! tag)).

(** [font.getGlyphID(name)]: the position of [name] in the glyph order. *)
Fixpoint index_of (name : string) (order : list string) : option nat :=
  match order with
  | [] => None
  | n :: rest => if String.eqb n name then Some 0 else S <$> index_of name rest
  end.

Definition getGlyphID (font : TTFont) (name : string) : result nat :=
  match index_of name (glyphOrder font) with
  | Some gid => Ok gid
  | None => Raise KeyError
  end.

(** * converter.py *)

Definition DEFAULT_SIZE : Z := 128.

(** ** Strike selection (lines 34-40) *)

(** [max(xs, key=key)]: an element is replaced only by a strictly greater
    one, so the first maximal element wins. *)
Definition py_max {A} (key : A → Z) (xs : list A) : option A :=
  match xs with
  | [] => None
  | x :: rest =>
      Some (fold_left (λ best y, if (key best <? key y)%Z then y else best) rest x)
  end.

(** [chosen_sbix]: the table and its [strikes] must both be truthy.  Every
    strike carries [ppem], so the default of [getattr(s, "ppem", 0)] is not
    used. *)
Definition chosen_sbix (font : TTFont) : option Strike :=
  match tables font !! "sbix" with
  | Some sbix_table =>
      match tbl_strikes sbix_table with
      | Some ((_ :: _) as strikes) => py_max ppem (strikes.*2)
      | _ => None
      end
  | None => None
  end.

Definition cbdt_strikes (font : TTFont) : list (gmap string CbdtGlyph) :=
  if font_has font "CBDT" then
    match tables font !! "CBDT" with
    | Some t => default [] (tbl_strikeData t)
    | None => []
    end
  else [].

(** [cbdt_strikes[-1] if cbdt_strikes else None] *)
Definition chosen_cbdt (font : TTFont) : option (gmap string CbdtGlyph) :=
  last (cbdt_strikes font).

(** ** CBDT record decoding (lines 53-62) *)

(** The bytes handed to the codec inside the [try] block. *)
Definition cbdt_blob (data : bytes) : result bytes :=
  match bytes_find png_magic data with
  | Some png_offset => Ok (drop png_offset data)
  | None =>
      img_len ← struct_unpack_be_I (slice 5 9 data);
      Ok (slice 9 (9 + N.to_nat img_len) data)
  end.

Section Pipelines.
Context `{ImageCodec} `{Base64}.

(** The codec applied to raw bytes; a failure is PIL's exception. *)
Definition Image_open (data : bytes) : result Image :=
  match image_open_rgba data with
  | Some img => Ok img
  | None => Raise UnidentifiedImageError
  end.

(** The body of the [try] block: locate the blob, then decode it. *)
Definition cbdt_decode (data : bytes) : result Image :=
  blob ← cbdt_blob data;
  Image_open blob.

(** ** [render_glyph] (lines 12-27) *)

Definition render_glyph (face : Face) (glyph_index : nat) (size : Z)
  : result (option Image) :=
  let request :=
    if (num_fixed_sizes face =? 0)%N then PixelSizes 0 size else SelectSize 0 in
  match load_glyph face request glyph_index with
  | None => Raise FT_Exception
  | Some bmp =>
      if (bmp_width bmp =? 0)%N || (bmp_rows bmp =? 0)%N then Ok None
      else
        match image_frombytes_L (bmp_width bmp) (bmp_rows bmp) (bmp_buffer bmp) with
        | None => Raise ValueError
        | Some alpha =>
            let img := image_new_rgba (bmp_width bmp) (bmp_rows bmp) in
            Ok (Some (image_putalpha img alpha))
        end
  end.

(** ** The per-glyph body of [extract_images] (lines 43-69) *)

(** Lines 49-62, the [elif] branch.  An empty CBDT dictionary is falsy and
    has no entry, so the test reduces to the lookup. *)
Definition reuse_cbdt (cbdt : option (gmap string CbdtGlyph))
    (glyph_name : string) : result (option Image) :=
  match cbdt ≫= (λ c, c !! glyph_name) with
  | Some g =>
      match cbdt_data g with
      | Some ((_ :: _) as data) =>
          Ok (except_Exception (Some <$> cbdt_decode data) None)
      | _ => Ok None
      end
  | None => Ok None
  end.

(** Lines 45-62, the [if]/[elif] on the two chosen strikes.  A [Strike]
    object is truthy, so line 45 reads its [glyphData] attribute, and raises
    [AttributeError] when the strike has none. *)
Definition reuse_bitmap (sbix : option Strike)
    (cbdt : option (gmap string CbdtGlyph)) (glyph_name : string)
  : result (option Image) :=
  match sbix with
  | Some chosen_sbix =>
      match glyphData chosen_sbix with
      | None => Raise AttributeError
      | Some entries =>
          match entries !! glyph_name with
          | Some entry =>
              match entry_data entry with
              | [] => Ok None
              | data => img ← Image_open data; Ok (Some img)
              end
          | None => reuse_cbdt cbdt glyph_name
          end
      end
  | None => reuse_cbdt cbdt glyph_name
  end.

(** Lines 64-69, the FreeType fallback. *)
Definition render_fallback (font : TTFont) (face : Face) (size : Z)
    (glyph_name : string) : result (option Image) :=
  gid ← getGlyphID font glyph_name;
  except_FT_Exception (render_glyph face gid size) None.

Definition extract_glyph (font : TTFont) (face : Face) (size : Z)
    (sbix : option Strike) (cbdt : option (gmap string CbdtGlyph))
    (glyph_name : string) : result (option Image) :=
  img ← reuse_bitmap sbix cbdt glyph_name;
  match img with
  | Some _ => Ok img
  | None => render_fallback font face size glyph_name
  end.

(** ** [extract_images] (lines 29-74) *)

(** The state of the loop: the [images] dictionary and the files of
    [out_dir], by file name. *)
Definition ExtractState : Type := gmap string Image * gmap string bytes.

Fixpoint extract_loop (font : TTFont) (face : Face) (size : Z)
    (sbix : option Strike) (cbdt : option (gmap string CbdtGlyph))
    (names : list string) (st : ExtractState) : result ExtractState :=
  match names with
  | [] => Ok st
  | glyph_name :: rest =>
      img ← extract_glyph font face size sbix cbdt glyph_name;
      match img with
      | None => extract_loop font face size sbix cbdt rest st
      | Some img =>
          extract_loop font face size sbix cbdt rest
            (<[glyph_name := img]> st.1,
             <[glyph_name +:+ ".png" := image_save_png img]> st.2)
      end
  end.

(** [font] and [face] are the two objects opened from [font_path];
    [out_dir] is the content of the output directory before the run. *)
Definition extract_images (font : TTFont) (face : Face)
    (out_dir : gmap string bytes) (size : Z)
  : result (TTFont * gmap string Image * gmap string bytes) :=
  st ← extract_loop font face size (chosen_sbix font) (chosen_cbdt font)
        (glyphOrder font) (∅, out_dir);
  Ok (font, st.1, st.2).

(** ** [embed_sbix] (lines 76-98) *)

Definition png_glyph (glyph_name : string) (img : Image) : SbixGlyph :=
  mkSbixGlyph glyph_name "png " 0 0 (image_save_png img).

(** [strike.glyphs[glyph_name] = glyph] *)
Definition strike_add_glyph (glyph_name : string) (img : Image) (strike : Strike)
  : Strike :=
  mkStrike (ppem strike) (resolution strike) (glyphData strike)
           (<[glyph_name := png_glyph glyph_name img]> (glyphs strike)).

(** The strike after the loop.  [Strike(...)] starts with an empty [glyphs]
    dictionary; the script sets [glyphData] to [{}] and fills [glyphs]. *)
Definition embed_strike (images : gmap string Image) (ppem resolution : Z)
  : Strike :=
  map_fold strike_add_glyph (mkStrike ppem resolution (Some ∅) ∅) images.

Definition embed_sbix (font : TTFont) (images : gmap string Image)
    (ppem resolution : Z) : TTFont :=
  let strike := embed_strike images ppem resolution in
  let table := newTable "sbix" in
  let table := set_version table 1 in
  let table := set_flags table 1 in
  let table := set_strikes table [(ppem, strike)] in
  font_set font "sbix" table.

(** [main] after argument parsing: extract, then embed with the defaults. *)
Definition main (font : TTFont) (face : Face) (out_dir : gmap string bytes)
  : result (TTFont * gmap string bytes) :=
  '(font, images, files) ← extract_images font face out_dir DEFAULT_SIZE;
  Ok (embed_sbix font images DEFAULT_SIZE 72, files).

(** * make_svg_font.py *)

(** ** [add_empty_outlines] (lines 22-38) *)

Definition empty_outline : Glyph := mkGlyph 0 [] [] [] None.

(** Lines 29-37 on the [glyphs] dictionary. *)
Definition stub_missing (glyph_order : list string) (glyphs : gmap string Glyph)
  : gmap string Glyph :=
  fold_left
    (λ glyphs name,
       if bool_decide (is_Some (glyphs !! name)) then glyphs
       else <[name := empty_outline]> glyphs)
    glyph_order glyphs.

Definition add_empty_outlines (font : TTFont) (glyph_order : list string)
  : TTFont :=
  let font :=
    if font_has font "glyf" then font
    else font_set font "glyf" (newTable "glyf") in
  match tables font !! "glyf" with
  | Some glyf =>
      let glyphs := default ∅ (tbl_glyphs glyf) in
      let glyf := set_glyphs glyf (stub_missing glyph_order glyphs) in
      (* [glyf] is the object stored in the font: the update is visible there *)
      let font := font_set font "glyf" glyf in
      font_set font "loca" (newTable "loca")
  | None => font (* unreachable: the tag was just ensured *)
  end.

(** ** [build_svg_docs] (lines 41-56) *)

Definition dq : string := String (Ascii.ascii_of_nat 34) EmptyString.

(** The f-string of lines 50-54. *)
Definition svg_text (w h : N) (b64 : string) : string :=
  "<svg xmlns=" +:+ dq +:+ "http://www.w3.org/2000/svg" +:+ dq +:+
  " width=" +:+ dq +:+ pretty w +:+ dq +:+
  " height=" +:+ dq +:+ pretty h +:+ dq +:+
  " viewBox=" +:+ dq +:+ "0 0 " +:+ pretty w +:+ " " +:+ pretty h +:+ dq +:+
  "><image width=" +:+ dq +:+ pretty w +:+ dq +:+
  " height=" +:+ dq +:+ pretty h +:+ dq +:+
  " href=" +:+ dq +:+ "data:image/png;base64," +:+ b64 +:+ dq +:+
  " /></svg>".

(** The loop over [enumerate(glyph_order)], from position [gid] on, with the
    documents appended so far.  [png_dir] maps a file name to its bytes. *)
Fixpoint build_svg_docs_loop (png_dir : gmap string bytes) (gid : nat)
    (names : list string) (docs : list SVGDoc) : result (list SVGDoc) :=
  match names with
  | [] => Ok docs
  | name :: rest =>
      match png_dir !! (name +:+ ".png") with
      | None => build_svg_docs_loop png_dir (S gid) rest docs
      | Some content =>
          match image_size content with
          | None => Raise UnidentifiedImageError
          | Some (w, h) =>
              let svg := svg_text w h (b64encode content) in
              build_svg_docs_loop png_dir (S gid) rest (docs ++ [(svg, gid, gid)])
          end
      end
  end.

Definition build_svg_docs (glyph_order : list string)
    (png_dir : gmap string bytes) : result (list SVGDoc) :=
  build_svg_docs_loop png_dir 0 glyph_order [].

(** ** [drop_bitmap_tables] (lines 59-62) *)

Definition bitmap_tags : list string := ["sbix"; "CBDT"; "CBLC"; "EBDT"; "EBLC"].

Definition drop_bitmap_tables (font : TTFont) : TTFont :=
  fold_left (λ font tag, if font_has font tag then font_del font tag else font)
            bitmap_tags font.

(** ** [build_svg_font] (lines 75-87) *)

(** The font after [add_empty_outlines] and the assignment of the SVG table,
    that is, the argument of [drop_bitmap_tables]. *)
Definition svg_embedded (font : TTFont) (png_dir : gmap string bytes)
  : result TTFont :=
  let glyph_order := glyphOrder font in
  let font := add_empty_outlines font glyph_order in
  docList ← build_svg_docs glyph_order png_dir;
  let svg_table := set_docList (newTable "SVG ") docList in
  Ok (font_set font "SVG " svg_table).

(** The font handed to [font.save(out_ttf)].  The optional WOFF2 export
    (lines 88-89) subsets and saves that font again through the subsetter, a
    collaborator, and is not part of the model. *)
Definition build_svg_font (src : TTFont) (png_dir : gmap string bytes)
  : result TTFont :=
  font ← svg_embedded src png_dir;
  Ok (drop_bitmap_tables font).

End Pipelines.

(** * Concrete collaborators and fonts

    A small lossless codec, standard base64 and a few hand-made fonts, used to
    run the pipelines on concrete inputs. *)

(** ** Base64 (RFC 4648, with padding) *)

Definition b64_alphabet : string :=
  "ABCDEFGHIJKLMNOPQRSTUVWXYZabcdefghijklmnopqrstuvwxyz0123456789+/".

Definition b64_char (n : N) : string :=
  match String.get (N.to_nat n) b64_alphabet with
  | Some c => String c EmptyString
  | None => "="
  end.

Fixpoint b64_groups (b : bytes) : string :=
  match b with
  | [] => ""
  | [x] =>
      let n := Byte.to_N x in
      b64_char (n / 4) +:+ b64_char (n mod 4 * 16) +:+ "=="
  | [x; y] =>
      let n := Byte.to_N x in
      let m := Byte.to_N y in
      b64_char (n / 4) +:+ b64_char (n mod 4 * 16 + m / 16) +:+
      b64_char (m mod 16 * 4) +:+ "="
  | x :: y :: z :: rest =>
      let n := Byte.to_N x in
      let m := Byte.to_N y in
      let k := Byte.to_N z in
      b64_char (n / 4) +:+ b64_char (n mod 4 * 16 + m / 16) +:+
      b64_char (m mod 16 * 4 + k / 64) +:+ b64_char (k mod 64) +:+
      b64_groups rest
  end%N.

Definition std_base64 : Base64 := b64_groups.

(** ** A raw codec

    After the PNG signature come one byte of width, one byte of height and
    the alpha plane. *)

Record RawImage := mkRaw {
  raw_width : byte;
  raw_height : byte;
  raw_alpha : bytes
}.

Definition raw_open (b : bytes) : option RawImage :=
  if startswith png_magic b then
    match drop 4 b with
    | w :: h :: alpha => Some (mkRaw w h alpha)
    | _ => None
    end
  else None.

Definition raw_save (img : RawImage) : bytes :=
  png_magic ++ raw_width img :: raw_height img :: raw_alpha img.

Definition byte_of (n : N) : byte := default x00 (Byte.of_N n).

Definition raw_codec : ImageCodec := {|
  Image := RawImage;
  image_open_rgba := raw_open;
  image_save_png := raw_save;
  image_size := λ b,
    (λ img, (Byte.to_N (raw_width img), Byte.to_N (raw_height img))) <$> raw_open b;
  image_frombytes_L := λ w h buffer,
    if (N.of_nat (length buffer) =? w * h)%N
    then Some (mkRaw (byte_of w) (byte_of h) buffer) else None;
  image_new_rgba := λ w h,
    mkRaw (byte_of w) (byte_of h) (replicate (N.to_nat (w * h)) x00);
  image_putalpha := λ img alpha,
    mkRaw (raw_width img) (raw_height img) (raw_alpha alpha)
|}.

(** ** Example fonts *)

Definition sbix_font_table (strikes : list (Z * Strike)) : Table :=
  set_strikes (newTable "sbix") strikes.

Definition cbdt_font_table (strikeData : list (gmap string CbdtGlyph)) : Table :=
  mkTable "CBDT" None None None (Some strikeData) None None.

(** A 2x1 image and a format-17 record that carries it. *)
Definition img_2x1 : RawImage := mkRaw x02 x01 [x10; x20].

Definition record_2x1 : bytes :=
  [x00; x00; x00; x00; x00; x00; x00; x00; x08] ++ raw_save img_2x1.

(** A face with one fixed size that renders every glyph as one opaque pixel. *)
Definition face_1x1 : Face :=
  mkFace 1 (λ _ _, Some (mkBitmap 1 1 [xff])).

(** A face that fails on every glyph. *)
Definition face_failing : Face := mkFace 0 (λ _ _, None).

(** A font as read from a file: the sbix strike holds a PNG for glyph "A"
    in [glyphs] and has no [glyphData] attribute. *)
Definition font_sbix_file : TTFont :=
  mkFont ["A"]
    (<["sbix" := sbix_font_table
                   [(128%Z, mkStrike 128 72 None
                              {["A" := mkSbixGlyph "A" "png " 0 0
                                         (raw_save img_2x1)]})]]> ∅).

(** Glyph "A" has a CBDT record whose bytes are not an image. *)
Definition font_corrupt_cbdt : TTFont :=
  mkFont ["A"; "B"]
    (<["CBDT" := cbdt_font_table [{["A" := mkCbdtGlyph (Some [x00])]}]]> ∅).

(** Three strikes, the largest in the middle. *)
Definition strike_of_ppem (p : Z) : Strike := mkStrike p 72 None ∅.

Definition font_three_strikes : TTFont :=
  mkFont ["A"]
    (<["sbix" := sbix_font_table
                   [(96%Z, strike_of_ppem 96); (128%Z, strike_of_ppem 128);
                    (64%Z, strike_of_ppem 64)]]> ∅).

(** Eight glyphs; only the last has art, a 40x40 image. *)
Definition img_40x40 : RawImage := mkRaw x28 x28 (replicate 1600 xff).

Definition square_outline : Glyph :=
  mkGlyph 1 [3%Z] [1%Z; 1%Z; 1%Z; 1%Z]
          [(0, 0)%Z; (10, 0)%Z; (10, 10)%Z; (0, 10)%Z] None.

Definition font_eight : TTFont :=
  mkFont ["g0"; "g1"; "g2"; "g3"; "g4"; "g5"; "g6"; "g7"]
    (<["glyf" := set_glyphs (newTable "glyf") {["g0" := square_outline]}]>
     (<["sbix" := sbix_font_table [(128%Z, strike_of_ppem 128)]]>
      (<["EBDT" := newTable "EBDT"]> ∅))).

Definition png_dir_g7 : gmap string bytes := {["g7.png" := raw_save img_40x40]}.

(** The document of glyph 7 and the font expected from the SVG build of
    [font_eight]: stubs for g1..g7, the outline of g0 kept, a fresh loca
    table, the SVG table, and neither sbix nor EBDT. *)
Definition svg_g7 : string :=
  svg_text 40 40 (b64_groups (raw_save img_40x40)).

Definition font_eight_svg : TTFont :=
  mkFont ["g0"; "g1"; "g2"; "g3"; "g4"; "g5"; "g6"; "g7"]
    (<["SVG " := set_docList (newTable "SVG ") [(svg_g7, 7, 7)]]>
     (<["loca" := newTable "loca"]>
      (<["glyf" := set_glyphs (newTable "glyf")
                     (<["g0" := square_outline]>
                      (<["g1" := empty_outline]>
                       (<["g2" := empty_outline]>
                        (<["g3" := empty_outline]>
                         (<["g4" := empty_outline]>
                          (<["g5" := empty_outline]>
                           (<["g6" := empty_outline]>
                            (<["g7" := empty_outline]> ∅))))))))]> ∅))).

(** A record without signature: declared length 2, payload of three bytes. *)
Definition record_no_magic : bytes :=
  [x01; x02; x03; x04; x05; x00; x00; x00; x02; xaa; xbb; xcc].

(** * Vocabulary of the statements *)

(** [sub] occurs in [data] at index [i]. *)
Definition occurs_at (sub data : bytes) (i : nat) : Prop :=
  take (length sub) (drop i data) = sub.

(** The unsigned 32-bit integer with big-endian bytes [b0 b1 b2 b3]. *)
Definition uint32_be (b0 b1 b2 b3 : byte) : N :=
  (Byte.to_N b0 * 16777216 + Byte.to_N b1 * 65536 +
   Byte.to_N b2 * 256 + Byte.to_N b3)%N.

(** The outline dictionary of a font: empty when there is no glyf table or
    the table has no [glyphs] attribute. *)
Definition outlines (font : TTFont) : gmap string Glyph :=
  default ∅ (tables font !! "glyf" ≫= tbl_glyphs).



(** * Further vocabulary and example data *)

(** The four big-endian bytes of an unsigned 32-bit integer. *)
Definition uint32_be_bytes (n : N) : bytes :=
  [byte_of (n / 16777216 mod 256); byte_of (n / 65536 mod 256);
   byte_of (n / 256 mod 256); byte_of (n mod 256)]%N.

(** What [face_1x1] renders, and the mapping and files expected from a run
    on a two-glyph font without usable bitmaps. *)
Definition px_1x1 : RawImage := mkRaw x01 x01 [xff].

Definition images_AB : gmap string RawImage :=
  {["A" := px_1x1; "B" := px_1x1]}.

Definition files_AB : gmap string bytes :=
  {["A.png" := raw_save px_1x1; "B.png" := raw_save px_1x1]}.

(** The strikes of [font_three_strikes] in ascending order. *)
Definition font_three_strikes_sorted : TTFont :=
  mkFont ["A"]
    (<["sbix" := sbix_font_table
                   [(64%Z, strike_of_ppem 64); (96%Z, strike_of_ppem 96);
                    (128%Z, strike_of_ppem 128)]]> ∅).

(** A directory whose only file is named after glyph g7 and is not an
    image, and [png_dir_g7] with a file that belongs to no glyph. *)
Definition png_dir_corrupt : gmap string bytes := {["g7.png" := [x00]]}.

Definition png_dir_g7_extra : gmap string bytes :=
  <["notes.txt" := [x00]]> png_dir_g7.

(** A format-17 record with a JPEG-like payload of three bytes, two bytes of
    padding after it. *)
Definition record_jpeg : bytes :=
  [x01; x02; x03; x04; x05] ++ uint32_be_bytes 3 ++ [xff; xd8; xff] ++ [x00; x00].

(** * Properties *)

(** ** Exceptions *)

Lemma bind_Ok {A B} (a : A) (k : A → result B) : Ok a ≫= k = k a.
Proof. done. Qed.

Lemma bind_Raise {A B} (e : exn) (k : A → result B) : Raise e ≫= k = Raise e.
Proof. done. Qed.

Lemma fmap_Ok {A B} (f : A → B) (a : A) : f <$> Ok a = Ok (f a).
Proof. done. Qed.

Lemma fmap_Raise {A B} (f : A → B) (e : exn) : f <$> Raise e = Raise e.
Proof. done. Qed.

Lemma bind_Ok_inv {A B} (r : result A) (k : A → result B) (b : B) :
  r ≫= k = Ok b → ∃ a, r = Ok a ∧ k a = Ok b.
Proof. destruct r as [a|e]; [eauto | done]. Qed.

Create Rewrite HintDb result.
#[global] Hint Rewrite @bind_Ok @bind_Raise @fmap_Ok @fmap_Raise : result.

Ltac simpl_result := autorewrite with result in *.

(** ** Python primitives *)

Lemma startswith_true (sub data : bytes) :
  startswith sub data = true ↔ take (length sub) data = sub.
Proof.
  revert data. induction sub as [|a sub IH]; intros [|b data]; simpl; try done.
  rewrite andb_true_iff, IH. split.
  - intros [Hab ->]. apply Byte.byte_dec_bl in Hab. by subst.
  - intros [= -> Ht]. split; [by apply Byte.byte_dec_lb | by rewrite Ht].
Qed.

Lemma occurs_at_0 (sub data : bytes) :
  occurs_at sub data 0 ↔ startswith sub data = true.
Proof. unfold occurs_at. rewrite drop_0. symmetry. apply startswith_true. Qed.

Lemma occurs_at_S (sub : bytes) (b : byte) (data : bytes) (j : nat) :
  occurs_at sub (b :: data) (S j) ↔ occurs_at sub data j.
Proof. done. Qed.

Lemma bytes_find_Some (sub data : bytes) (i : nat) :
  bytes_find sub data = Some i →
  occurs_at sub data i ∧ ∀ j, j < i → ¬ occurs_at sub data j.
Proof.
  revert i. induction data as [|b data IH]; intros i; simpl.
  - destruct (startswith sub []) eqn:E; [|done].
    intros [= <-]. split; [by apply occurs_at_0 | lia].
  - destruct (startswith sub (b :: data)) eqn:E.
    + intros [= <-]. split; [by apply occurs_at_0 | lia].
    + destruct (bytes_find sub data) as [k|]; [|done]. intros [= <-].
      destruct (IH k eq_refl) as [Hk Hmin]. split; [by apply occurs_at_S|].
      intros [|j] Hj Hocc.
      * apply occurs_at_0 in Hocc. congruence.
      * apply occurs_at_S in Hocc. apply (Hmin j); [lia | exact Hocc].
Qed.

Lemma bytes_find_None (sub data : bytes) :
  bytes_find sub data = None → ∀ j, ¬ occurs_at sub data j.
Proof.
  induction data as [|b data IH]; simpl.
  - destruct (startswith sub []) eqn:E; [done|]. intros _ j Hocc.
    unfold occurs_at in Hocc. rewrite drop_nil in Hocc.
    assert (startswith sub [] = true) by by apply startswith_true.
    congruence.
  - destruct (startswith sub (b :: data)) eqn:E; [done|].
    destruct (bytes_find sub data) as [k|]; [done|]. intros _ [|j] Hocc.
    + apply occurs_at_0 in Hocc. congruence.
    + apply occurs_at_S in Hocc. by apply (IH eq_refl j).
Qed.

Lemma bytes_find_first (sub data : bytes) (i : nat) :
  occurs_at sub data i → (∀ j, j < i → ¬ occurs_at sub data j) →
  bytes_find sub data = Some i.
Proof.
  intros Hocc Hmin. destruct (bytes_find sub data) as [k|] eqn:E.
  - apply bytes_find_Some in E as [Hk Hkmin]. f_equal.
    destruct (Nat.lt_trichotomy k i) as [Hlt|[->|Hgt]]; [|done|].
    + by destruct (Hmin k Hlt).
    + by destruct (Hkmin i Hgt).
  - by destruct (bytes_find_None _ _ E i).
Qed.

Example bytes_find_record : bytes_find png_magic record_2x1 = Some 9.
Proof. reflexivity. Qed.

Example bytes_find_absent : bytes_find png_magic record_no_magic = None.
Proof. reflexivity. Qed.

Example slice_clamps : slice 9 13 [x00; x01] = [] ∧ slice 1 5 [x00; x01] = [x01].
Proof. done. Qed.

(** ** Strike selection *)

Lemma py_max_first_maximal {A} (key : A → Z) (x : A) (rest : list A) :
  ∃ i m, py_max key (x :: rest) = Some m ∧ (x :: rest) !! i = Some m ∧
         (∀ y, y ∈ x :: rest → (key y ≤ key m)%Z) ∧
         (∀ j y, j < i → (x :: rest) !! j = Some y → (key y < key m)%Z).
Proof.
  unfold py_max. induction rest as [|z rest IH] using rev_ind.
  - exists 0, x. simpl. split_and!; [done | done | | lia].
    intros y Hy. apply list_elem_of_singleton in Hy. subst. lia.
  - destruct IH as (i & m & [= Hm] & Hi & Hmax & Hfirst).
    rewrite fold_left_app. simpl. rewrite Hm.
    destruct (key m <? key z)%Z eqn:E.
    + apply Z.ltb_lt in E. exists (length (x :: rest)), z. split_and!.
      * done.
      * change (x :: rest ++ [z]) with ((x :: rest) ++ [z]).
        by rewrite lookup_app_r, Nat.sub_diag.
      * intros y Hy. change (x :: rest ++ [z]) with ((x :: rest) ++ [z]) in Hy.
        apply elem_of_app in Hy as [Hy|Hy].
        -- specialize (Hmax y Hy). lia.
        -- apply list_elem_of_singleton in Hy. subst. lia.
      * intros j y Hj Hy.
        change (x :: rest ++ [z]) with ((x :: rest) ++ [z]) in Hy.
        rewrite lookup_app_l in Hy by done.
        assert (y ∈ x :: rest) as Hin by (apply list_elem_of_lookup; eauto).
        specialize (Hmax y Hin). lia.
    + apply Z.ltb_ge in E. exists i, m. split_and!.
      * done.
      * change (x :: rest ++ [z]) with ((x :: rest) ++ [z]).
        apply lookup_app_l_Some. exact Hi.
      * intros y Hy. change (x :: rest ++ [z]) with ((x :: rest) ++ [z]) in Hy.
        apply elem_of_app in Hy as [Hy|Hy].
        -- by apply Hmax.
        -- apply list_elem_of_singleton in Hy. by subst.
      * intros j y Hj Hy.
        change (x :: rest ++ [z]) with ((x :: rest) ++ [z]) in Hy.
        apply lookup_lt_Some in Hi as Hlt.
        rewrite lookup_app_l in Hy by lia.
        by apply (Hfirst j).
Qed.

(** Among strikes of equal ppem the first in iteration order is chosen. *)
Example py_max_tie :
  py_max ppem [mkStrike 64 72 None ∅; mkStrike 128 72 None ∅;
               mkStrike 128 96 None ∅]
  = Some (mkStrike 128 72 None ∅).
Proof. reflexivity. Qed.

Lemma chosen_sbix_unfold (font : TTFont) (sbix_table : Table)
    (strikes : list (Z * Strike)) :
  tables font !! "sbix" = Some sbix_table →
  tbl_strikes sbix_table = Some strikes →
  chosen_sbix font = py_max ppem (strikes.*2).
Proof.
  intros Ht Hs. unfold chosen_sbix. rewrite Ht, Hs. by destruct strikes.
Qed.

Lemma chosen_cbdt_unfold (font : TTFont) (cbdt_table : Table) :
  tables font !! "CBDT" = Some cbdt_table →
  chosen_cbdt font = last (default [] (tbl_strikeData cbdt_table)).
Proof.
  intros Ht. unfold chosen_cbdt, cbdt_strikes, font_has.
  rewrite Ht. by rewrite bool_decide_eq_true_2 by eauto.
Qed.

(** C4. Strike selection: a non-empty sbix [strikes] dictionary yields the
    first strike of maximal ppem in iteration order (so strikes at ppem 64,
    96 and 128 in any order yield the ppem-128 one); a non-empty CBDT strike
    list yields its last strike; an absent or empty table yields no strike. *)
Theorem strike_selection (font : TTFont) :
  (∀ sbix_table strikes,
     tables font !! "sbix" = Some sbix_table →
     tbl_strikes sbix_table = Some strikes → strikes ≠ [] →
     ∃ i s, chosen_sbix font = Some s ∧ strikes.*2 !! i = Some s ∧
            (∀ s', s' ∈ strikes.*2 → (ppem s' ≤ ppem s)%Z) ∧
            (∀ j s', j < i → strikes.*2 !! j = Some s' → (ppem s' < ppem s)%Z)) ∧
  (∀ sbix_table strikes,
     tables font !! "sbix" = Some sbix_table →
     tbl_strikes sbix_table = Some strikes →
     Permutation (ppem <$> strikes.*2) [64; 96; 128]%Z →
     ppem <$> chosen_sbix font = Some 128%Z) ∧
  (∀ cbdt_table earlier s,
     tables font !! "CBDT" = Some cbdt_table →
     tbl_strikeData cbdt_table = Some (earlier ++ [s]) →
     chosen_cbdt font = Some s) ∧
  ((tables font !! "sbix" = None ∨
    ∃ t, tables font !! "sbix" = Some t ∧
         (tbl_strikes t = None ∨ tbl_strikes t = Some [])) →
   chosen_sbix font = None) ∧
  ((tables font !! "CBDT" = None ∨
    ∃ t, tables font !! "CBDT" = Some t ∧
         (tbl_strikeData t = None ∨ tbl_strikeData t = Some [])) →
   chosen_cbdt font = None).
Proof.
  assert (Hfirst : ∀ sbix_table strikes,
     tables font !! "sbix" = Some sbix_table →
     tbl_strikes sbix_table = Some strikes → strikes ≠ [] →
     ∃ i s, chosen_sbix font = Some s ∧ strikes.*2 !! i = Some s ∧
            (∀ s', s' ∈ strikes.*2 → (ppem s' ≤ ppem s)%Z) ∧
            (∀ j s', j < i → strikes.*2 !! j = Some s' → (ppem s' < ppem s)%Z)).
  { intros t strikes Ht Hs Hne.
    rewrite (chosen_sbix_unfold _ _ _ Ht Hs).
    destruct strikes as [|[k x] rest]; [done|].
    destruct (py_max_first_maximal ppem x (rest.*2)) as (i & m & Hm & Hi & Hmax & Hf).
    exists i, m. rewrite fmap_cons. simpl. done. }
  split_and!.
  - exact Hfirst.
  - intros t strikes Ht Hs Hperm.
    destruct (Hfirst t strikes Ht Hs) as (i & s & -> & Hi & Hmax & _).
    { intros ->. apply Permutation_length in Hperm. done. }
    simpl. f_equal.
    assert (ppem s ∈ ppem <$> strikes.*2) as Hin.
    { apply list_elem_of_fmap. exists s. split; [done|].
      apply list_elem_of_lookup. eauto. }
    assert (128%Z ∈ ppem <$> strikes.*2) as Htop.
    { rewrite Hperm. do 2 apply list_elem_of_further. apply list_elem_of_here. }
    apply list_elem_of_fmap in Htop as (s' & Hs' & Hin').
    specialize (Hmax s' Hin').
    rewrite Hperm in Hin. set_unfold in Hin. lia.
  - intros t earlier s Ht Hs. rewrite (chosen_cbdt_unfold _ _ Ht), Hs. simpl.
    apply last_snoc.
  - intros [Hn|(t & Ht & [Hs|Hs])]; unfold chosen_sbix.
    + by rewrite Hn.
    + by rewrite Ht, Hs.
    + by rewrite Ht, Hs.
  - intros [Hn|(t & Ht & [Hs|Hs])].
    + unfold chosen_cbdt, cbdt_strikes, font_has. rewrite Hn.
      by case_bool_decide.
    + by rewrite (chosen_cbdt_unfold _ _ Ht), Hs.
    + by rewrite (chosen_cbdt_unfold _ _ Ht), Hs.
Qed.

Lemma strike_selection_witness :
  ppem <$> chosen_sbix font_three_strikes = Some 128%Z.
Proof.
  apply (proj1 (proj2 (strike_selection font_three_strikes))
           (sbix_font_table
              [(96%Z, strike_of_ppem 96); (128%Z, strike_of_ppem 128);
               (64%Z, strike_of_ppem 64)])
           [(96%Z, strike_of_ppem 96); (128%Z, strike_of_ppem 128);
            (64%Z, strike_of_ppem 64)]).
  - reflexivity.
  - reflexivity.
  - simpl. apply (perm_trans (l' := [96; 64; 128]%Z)).
    + apply perm_skip, perm_swap.
    + apply perm_swap.
Defined.

(** ** CBDT record decoding *)

Lemma be_value_4 (b0 b1 b2 b3 : byte) :
  be_value [b0; b1; b2; b3] = uint32_be b0 b1 b2 b3.
Proof. unfold be_value, uint32_be. cbn [fold_left]. lia. Qed.

Lemma cbdt_blob_no_magic (data : bytes) :
  bytes_find png_magic data = None →
  cbdt_blob data =
    (img_len ← struct_unpack_be_I (take 4 (drop 5 data));
     Ok (take (N.to_nat img_len) (drop 9 data))).
Proof.
  intros Hnone. unfold cbdt_blob, slice. rewrite Hnone.
  change (9 - 5) with 4.
  destruct (struct_unpack_be_I (take 4 (drop 5 data))) as [n|e]; [|done].
  simpl_result. by replace (9 + N.to_nat n - 9) with (N.to_nat n) by lia.
Qed.

Lemma no_occurrence_find (sub data : bytes) :
  (∀ j, ¬ occurs_at sub data j) → bytes_find sub data = None.
Proof.
  intros Hno. destruct (bytes_find sub data) as [i|] eqn:E; [|done].
  apply bytes_find_Some in E as [Hocc _]. by destruct (Hno i).
Qed.

(** C3. The decoder scans for the PNG signature; when it occurs, the image
    bytes are the blob from the first occurrence to the end.  Otherwise they
    are the bytes from offset 9 on, as many as the big-endian uint32 at
    offsets 5 to 8 says (all of them when the blob holds that many); a blob
    too short to hold that integer gives no image bytes. *)
Theorem cbdt_blob_spec (data : bytes) :
  (∀ off, occurs_at png_magic data off →
          (∀ j, j < off → ¬ occurs_at png_magic data j) →
          cbdt_blob data = Ok (drop off data)) ∧
  ((∀ j, ¬ occurs_at png_magic data j) →
   (∀ b5 b6 b7 b8,
      data !! 5 = Some b5 → data !! 6 = Some b6 →
      data !! 7 = Some b7 → data !! 8 = Some b8 →
      let n := N.to_nat (uint32_be b5 b6 b7 b8) in
      cbdt_blob data = Ok (take n (drop 9 data)) ∧
      (9 + n ≤ length data →
       ∃ image, cbdt_blob data = Ok image ∧ length image = n ∧
                ∀ k, k < n → image !! k = data !! (9 + k))) ∧
   (length data < 9 → cbdt_blob data = Raise struct_error)).
Proof.
  split.
  - intros off Hocc Hmin. unfold cbdt_blob.
    by rewrite (bytes_find_first _ _ _ Hocc Hmin).
  - intros Hno. apply no_occurrence_find in Hno.
    rewrite (cbdt_blob_no_magic _ Hno). split.
    + intros b5 b6 b7 b8 H5 H6 H7 H8 n.
      assert (take 4 (drop 5 data) = [b5; b6; b7; b8]) as ->.
      { clear Hno. do 9 (destruct data as [|? data]; [done|]).
        simpl in *. rewrite take_0. congruence. }
      unfold struct_unpack_be_I. cbn [length Nat.eqb].
      rewrite be_value_4. simpl_result. split; [done|].
      intros Hlen. exists (take n (drop 9 data)). split_and!; [done| |].
      * rewrite length_take, length_drop. lia.
      * intros k Hk. by rewrite lookup_take_lt, lookup_drop.
    + intros Hshort. unfold struct_unpack_be_I.
      destruct (Nat.eqb_spec (length (take 4 (drop 5 data))) 4) as [E|]; [|done].
      rewrite length_take, length_drop in E. lia.
Qed.

Lemma cbdt_blob_spec_witness :
  cbdt_blob record_no_magic = Ok [xaa; xbb] ∧
  cbdt_blob record_2x1 = Ok (raw_save img_2x1).
Proof.
  split.
  - exact (proj1 (proj1 (proj2 (cbdt_blob_spec record_no_magic)
                           (bytes_find_None png_magic record_no_magic eq_refl))
                    x00 x00 x00 x02 eq_refl eq_refl eq_refl eq_refl)).
  - apply (proj1 (cbdt_blob_spec record_2x1) 9).
    + reflexivity.
    + intros j Hj. do 9 (destruct j as [|j]; [discriminate|]). lia.
Defined.

(** ** Bitmap extraction *)

Section Extraction.
Context `{ImageCodec}.

Implicit Types (font : TTFont) (face : Face) (size : Z) (name : string).
Implicit Types (sbix : option Strike) (cbdt : option (gmap string CbdtGlyph)).
Implicit Types (images : gmap string Image) (st : ExtractState).


Lemma reuse_no_glyphData sbix cbdt name s :
  sbix = Some s → glyphData s = None →
  reuse_bitmap sbix cbdt name = Raise AttributeError.
Proof. intros -> Hgd. unfold reuse_bitmap. by rewrite Hgd. Qed.




Lemma extract_glyph_raise font face size sbix cbdt name e :
  reuse_bitmap sbix cbdt name = Raise e →
  extract_glyph font face size sbix cbdt name = Raise e.
Proof. intros Hr. unfold extract_glyph. by rewrite Hr. Qed.

(** The loop records, for every name it visits, what [extract_glyph] gave,
    and leaves the other keys alone. *)
Lemma extract_loop_lookup font face size sbix cbdt names st st' :
  extract_loop font face size sbix cbdt names st = Ok st' →
  (∀ name, name ∈ names →
     ∃ r, extract_glyph font face size sbix cbdt name = Ok r ∧
          st'.1 !! name = match r with Some img => Some img | None => st.1 !! name end) ∧
  (∀ name, name ∉ names → st'.1 !! name = st.1 !! name).
Proof.
  revert st. induction names as [|n names IH]; intros st Hloop; simpl in Hloop.
  - injection Hloop as <-. split; [|done]. intros name Hin. by apply elem_of_nil in Hin.
  - apply bind_Ok_inv in Hloop as (r & Hr & Hloop).
    assert (∃ st1, extract_loop font face size sbix cbdt names st1 = Ok st' ∧
                   ∀ name, st1.1 !! name =
                     if decide (n = name) then
                       match r with Some img => Some img | None => st.1 !! name end
                     else st.1 !! name) as (st1 & Hrest & Hst1).
    { destruct r as [img|].
      - eexists. split; [exact Hloop|]. intros name. simpl.
        case_decide; [subst; by rewrite lookup_insert_eq | by rewrite lookup_insert_ne].
      - exists st. split; [exact Hloop|]. intros name. by case_decide. }
    destruct (IH st1 Hrest) as [Hin Hout]. split.
    + intros name Hname. destruct (decide (name ∈ names)) as [Hd|Hd].
      * destruct (Hin name Hd) as (r' & Hr' & Hl). exists r'. split; [done|].
        rewrite Hl. destruct r' as [img|]; [done|].
        rewrite Hst1. case_decide; [|done]. subst.
        rewrite Hr in Hr'. by injection Hr' as ->.
      * apply elem_of_cons in Hname as [->|Hname]; [|done].
        exists r. split; [done|]. rewrite (Hout n Hd), Hst1.
        rewrite decide_True by done. by destruct r.
    + intros name Hname. apply not_elem_of_cons in Hname as [Hne Hnin].
      rewrite (Hout name Hnin), Hst1. by rewrite decide_False by done.
Qed.


Lemma extract_images_inv font face out_dir size font' images files :
  extract_images font face out_dir size = Ok (font', images, files) →
  font' = font ∧
  extract_loop font face size (chosen_sbix font) (chosen_cbdt font)
    (glyphOrder font) (∅, out_dir) = Ok (images, files).
Proof.
  unfold extract_images. intros Hrun.
  apply bind_Ok_inv in Hrun as ([im fs] & Hloop & [= <- <- <-]). done.
Qed.

Lemma extract_images_lookup font face out_dir size font' images files name :
  extract_images font face out_dir size = Ok (font', images, files) →
  name ∈ glyphOrder font →
  extract_glyph font face size (chosen_sbix font) (chosen_cbdt font) name =
    Ok (images !! name).
Proof.
  intros Hrun Hin. apply extract_images_inv in Hrun as [_ Hloop].
  apply extract_loop_lookup in Hloop as [Hvisited _].
  destruct (Hvisited name Hin) as (r & Hr & Hl). simpl in Hl.
  rewrite Hr, Hl. destruct r; [done|]. by rewrite lookup_empty.
Qed.




(** C1, the failing path.  On a font read from a file whose sbix table has
    a strike, the chosen strike has no [glyphData] attribute: the first glyph
    of the glyph order raises [AttributeError] at line 45 and the run returns
    no mapping, whatever the strike holds in [glyphs] and whatever the CBDT
    strike and the renderer would give.  No sbix image is ever used. *)
Theorem sbix_strike_from_file_aborts font face out_dir size s name rest :
  chosen_sbix font = Some s → glyphData s = None →
  glyphOrder font = name :: rest →
  extract_images font face out_dir size = Raise AttributeError.
Proof.
  intros Hs Hgd Horder. unfold extract_images. rewrite Horder. simpl.
  rewrite (extract_glyph_raise _ _ _ _ _ _ AttributeError); [done|].
  by apply (reuse_no_glyphData _ _ _ s).
Qed.



(** ** sbix embedding *)

Lemma embed_strike_spec images (p r : Z) :
  ppem (embed_strike images p r) = p ∧
  resolution (embed_strike images p r) = r ∧
  ∀ name, glyphs (embed_strike images p r) !! name =
            png_glyph name <$> images !! name.
Proof.
  unfold embed_strike.
  apply (map_fold_weak_ind
           (λ strike (m : gmap string Image),
              ppem strike = p ∧ resolution strike = r ∧
              ∀ name, glyphs strike !! name = png_glyph name <$> m !! name)).
  - split_and!; [done..|]. intros name. simpl. by rewrite !lookup_empty.
  - intros i x m strike Hfresh (Hp & Hr & Hg). split_and!; [done..|].
    intros name. simpl. destruct (decide (i = name)) as [->|Hne].
    + by rewrite !lookup_insert_eq.
    + by rewrite !lookup_insert_ne, Hg.
Qed.

(** C5. With a lossless codec, [embed_sbix] on a set of images (in
    particular one returned by [extract_images]) stores a version-1 table
    with exactly one strike, at the given ppem; the strike has one record per
    entry of the set and no other, each with graphic type "png ", zero origin
    offsets and PNG bytes that decode to the image of the entry. *)
Theorem embed_sbix_roundtrip font images (p r : Z) :
  (∀ img, image_open_rgba (image_save_png img) = Some img) →
  ∃ table strike,
    tables (embed_sbix font images p r) !! "sbix" = Some table ∧
    tbl_version table = Some 1%Z ∧
    tbl_strikes table = Some [(p, strike)] ∧
    ppem strike = p ∧
    dom (glyphs strike) = dom images ∧
    size (glyphs strike) = size images ∧
    ∀ name img, images !! name = Some img →
      ∃ g, glyphs strike !! name = Some g ∧
           glyphName g = name ∧ graphicType g = "png " ∧
           originOffsetX g = 0%Z ∧ originOffsetY g = 0%Z ∧
           image_open_rgba (imageData g) = Some img.
Proof.
  intros Hlossless.
  destruct (embed_strike_spec images p r) as (Hp & _ & Hg).
  assert (dom (glyphs (embed_strike images p r)) = dom images) as Hdom.
  { apply set_eq. intros name. rewrite !elem_of_dom, Hg.
    by rewrite fmap_is_Some. }
  eexists _, (embed_strike images p r). split_and!.
  - unfold embed_sbix, font_set. simpl. apply lookup_insert_eq.
  - done.
  - done.
  - exact Hp.
  - exact Hdom.
  - by rewrite <- !size_dom, Hdom.
  - intros name img Himg. exists (png_glyph name img). split_and!; try done.
    + by rewrite Hg, Himg.
    + simpl. apply Hlossless.
Qed.

End Extraction.

(** ** The extraction on concrete fonts *)

Lemma raw_codec_lossless (img : RawImage) : raw_open (raw_save img) = Some img.
Proof. by destruct img. Qed.

Lemma sbix_strike_from_file_aborts_witness :
  extract_images (H := raw_codec) font_sbix_file face_1x1 ∅ 128
  = Raise AttributeError.
Proof.
  apply (sbix_strike_from_file_aborts (H := raw_codec) font_sbix_file face_1x1
           ∅ 128
           (mkStrike 128 72 None
              {["A" := mkSbixGlyph "A" "png " 0 0 (raw_save img_2x1)]})
           "A" []).
  - reflexivity.
  - reflexivity.
  - reflexivity.
Defined.


(** A corrupt CBDT record is recovered: the run returns and both glyphs are
    rendered. *)
Example corrupt_cbdt_record_recovered :
  ∃ font' images files,
    extract_images (H := raw_codec) font_corrupt_cbdt face_1x1 ∅ 128
      = Ok (font', images, files) ∧
    images !! "A" = Some (mkRaw x01 x01 [xff]) ∧
    images !! "B" = Some (mkRaw x01 x01 [xff]).
Proof.
  destruct (extract_images (H := raw_codec) font_corrupt_cbdt face_1x1 ∅ 128)
    as [[[font' images] files]|e] eqn:E; [|by vm_compute in E].
  exists font', images, files. vm_compute in E. injection E as <- <- <-. done.
Qed.

(** When the renderer fails on every glyph, the run still returns and the
    mapping is empty. *)
Example failed_renders_are_omitted :
  ∃ font' images files,
    extract_images (H := raw_codec) font_corrupt_cbdt face_failing ∅ 128
      = Ok (font', images, files) ∧
    images = ∅ ∧ files = ∅.
Proof.
  destruct (extract_images (H := raw_codec) font_corrupt_cbdt face_failing ∅ 128)
    as [[[font' images] files]|e] eqn:E; [|by vm_compute in E].
  exists font', images, files. vm_compute in E. injection E as <- <- <-. done.
Qed.


Lemma embed_sbix_roundtrip_witness :
  ∃ table strike,
    tables (embed_sbix (H := raw_codec) font_corrupt_cbdt
              {["A" := img_2x1]} 128 72) !! "sbix" = Some table ∧
    tbl_version table = Some 1%Z ∧
    tbl_strikes table = Some [(128%Z, strike)] ∧
    ppem strike = 128%Z ∧
    dom (glyphs strike) = dom ({["A" := img_2x1]} : gmap string RawImage) ∧
    size (glyphs strike) = size ({["A" := img_2x1]} : gmap string RawImage) ∧
    ∀ name img, ({["A" := img_2x1]} : gmap string RawImage) !! name = Some img →
      ∃ g, glyphs strike !! name = Some g ∧
           glyphName g = name ∧ graphicType g = "png " ∧
           originOffsetX g = 0%Z ∧ originOffsetY g = 0%Z ∧
           raw_open (imageData g) = Some img.
Proof.
  exact (embed_sbix_roundtrip (H := raw_codec) font_corrupt_cbdt
           {["A" := img_2x1]} 128 72 raw_codec_lossless).
Defined.

(** ** SVG font build *)



(** *** Outline stubs *)

Lemma stub_step_lookup (g : gmap string Glyph) (n name : string) :
  (if bool_decide (is_Some (g !! n)) then g
   else <[n := empty_outline]> g) !! name =
    match g !! name with
    | Some o => Some o
    | None => if decide (name = n) then Some empty_outline else None
    end.
Proof.
  case_bool_decide as Hn.
  - destruct (g !! name) eqn:E; [done|].
    destruct (decide (name = n)) as [->|]; [|done].
    rewrite E in Hn. by destruct Hn.
  - destruct (decide (name = n)) as [->|Hne].
    + rewrite lookup_insert_eq. apply eq_None_not_Some in Hn. by rewrite Hn.
    + rewrite lookup_insert_ne by done. by destruct (g !! name).
Qed.

Lemma stub_missing_lookup (order : list string) (g : gmap string Glyph)
    (name : string) :
  stub_missing order g !! name =
    match g !! name with
    | Some o => Some o
    | None => if decide (name ∈ order) then Some empty_outline else None
    end.
Proof.
  revert g. induction order as [|n order IH]; intros g.
  - unfold stub_missing. cbn [fold_left]. destruct (g !! name); [done|].
    destruct (decide (name ∈ [])) as [Hin|]; [by apply elem_of_nil in Hin|done].
  - unfold stub_missing in *. cbn [fold_left]. rewrite IH, stub_step_lookup.
    destruct (g !! name); [done|].
    destruct (decide (name = n)) as [->|Hne].
    + destruct (decide (n ∈ n :: order)) as [|Hc]; [done|].
      destruct Hc. apply list_elem_of_here.
    + destruct (decide (name ∈ order)) as [Hin|Hnin];
        destruct (decide (name ∈ n :: order)) as [Hc|Hc]; try done.
      * destruct Hc. by apply list_elem_of_further.
      * by apply elem_of_cons in Hc as [?|?].
Qed.

Lemma add_empty_outlines_glyf (font : TTFont) (order : list string) :
  ∃ glyf,
    tables (add_empty_outlines font order) !! "glyf" = Some glyf ∧
    tbl_glyphs glyf = Some (stub_missing order (outlines font)).
Proof.
  unfold add_empty_outlines, outlines, font_has.
  case_bool_decide as Hglyf.
  - destruct Hglyf as [glyf Hglyf]. rewrite Hglyf. simpl.
    eexists. split.
    + rewrite lookup_insert_ne by done. apply lookup_insert_eq.
    + reflexivity.
  - apply eq_None_not_Some in Hglyf. rewrite Hglyf. simpl.
    rewrite lookup_insert_eq. simpl.
    eexists. split.
    + rewrite lookup_insert_ne by done. apply lookup_insert_eq.
    + reflexivity.
Qed.

Lemma add_empty_outlines_outlines (font : TTFont) (order : list string) :
  outlines (add_empty_outlines font order) = stub_missing order (outlines font).
Proof.
  destruct (add_empty_outlines_glyf font order) as (glyf & Ht & Hg).
  unfold outlines at 1. rewrite Ht. simpl. by rewrite Hg.
Qed.

Lemma add_empty_outlines_order (font : TTFont) (order : list string) :
  glyphOrder (add_empty_outlines font order) = glyphOrder font.
Proof.
  unfold add_empty_outlines. destruct (font_has font "glyf"); simpl.
  - by destruct (tables font !! "glyf").
  - by rewrite lookup_insert_eq.
Qed.

(** *** Table stripping *)

Lemma strip_step_lookup (font : TTFont) (t tag : string) :
  tables (if font_has font t then font_del font t else font) !! tag =
    if decide (tag = t) then None else tables font !! tag.
Proof.
  unfold font_has. case_bool_decide as Ht; simpl.
  - destruct (decide (tag = t)) as [->|Hne];
      [apply lookup_delete_eq | by apply lookup_delete_ne].
  - destruct (decide (tag = t)) as [->|Hne]; [|done].
    by apply eq_None_not_Some.
Qed.

Lemma strip_lookup (tags : list string) (font : TTFont) (tag : string) :
  tables (fold_left (λ font tag, if font_has font tag then font_del font tag
                                 else font) tags font) !! tag =
    if decide (tag ∈ tags) then None else tables font !! tag.
Proof.
  revert font. induction tags as [|t tags IH]; intros font; cbn [fold_left].
  - destruct (decide (tag ∈ [])) as [Hin|]; [by apply elem_of_nil in Hin|done].
  - rewrite IH, strip_step_lookup.
    destruct (decide (tag ∈ tags)) as [Hin|Hnin];
      destruct (decide (tag ∈ t :: tags)) as [Hc|Hc]; try done.
    + destruct Hc. by apply list_elem_of_further.
    + apply elem_of_cons in Hc as [->|?]; [|done]. by rewrite decide_True.
    + destruct (decide (tag = t)) as [->|Hne]; [|done].
      destruct Hc. apply list_elem_of_here.
Qed.

Lemma drop_bitmap_tables_lookup (font : TTFont) (tag : string) :
  tables (drop_bitmap_tables font) !! tag =
    if decide (tag ∈ bitmap_tags) then None else tables font !! tag.
Proof. apply strip_lookup. Qed.

Lemma strip_absent (tags : list string) (font : TTFont) :
  (∀ tag, tag ∈ tags → tables font !! tag = None) →
  fold_left (λ font tag, if font_has font tag then font_del font tag else font)
            tags font = font.
Proof.
  induction tags as [|t tags IH]; intros Habs; simpl; [done|].
  unfold font_has at 2. rewrite (Habs t) by apply list_elem_of_here.
  rewrite bool_decide_eq_false_2 by by intros [? ?].
  apply IH. intros tag Hin. apply Habs. by apply list_elem_of_further.
Qed.

Lemma glyf_not_bitmap_tag : "glyf" ∉ bitmap_tags.
Proof.
  unfold bitmap_tags. intros Hin.
  repeat (apply elem_of_cons in Hin as [?|Hin]; [done|]).
  by apply elem_of_nil in Hin.
Qed.

Lemma SVG_not_bitmap_tag : "SVG " ∉ bitmap_tags.
Proof.
  unfold bitmap_tags. intros Hin.
  repeat (apply elem_of_cons in Hin as [?|Hin]; [done|]).
  by apply elem_of_nil in Hin.
Qed.

Section SvgFont.
Context `{ImageCodec} `{Base64}.

Implicit Types (png_dir : gmap string bytes) (docs : list SVGDoc).

(** *** SVG documents *)

Lemma build_svg_docs_loop_acc png_dir gid names docs :
  build_svg_docs_loop png_dir gid names docs =
    (λ new, docs ++ new) <$> build_svg_docs_loop png_dir gid names [].
Proof.
  revert gid docs. induction names as [|name rest IH]; intros gid docs; simpl.
  - simpl_result. by rewrite app_nil_r.
  - destruct (png_dir !! (name +:+ ".png")) as [content|]; [|apply IH].
    destruct (image_size content) as [[w h]|]; [|done].
    rewrite (IH (S gid) (docs ++ _)), (IH (S gid) [_]).
    destruct (build_svg_docs_loop png_dir (S gid) rest []); simpl_result; [|done].
    by rewrite <- app_assoc.
Qed.

Lemma build_svg_docs_loop_cons png_dir gid name rest :
  build_svg_docs_loop png_dir gid (name :: rest) [] =
    match png_dir !! (name +:+ ".png") with
    | None => build_svg_docs_loop png_dir (S gid) rest []
    | Some content =>
        match image_size content with
        | None => Raise UnidentifiedImageError
        | Some (w, h) =>
            (λ new, (svg_text w h (b64encode content), gid, gid) :: new)
              <$> build_svg_docs_loop png_dir (S gid) rest []
        end
    end.
Proof.
  simpl. destruct (png_dir !! (name +:+ ".png")) as [content|]; [|done].
  destruct (image_size content) as [[w h]|]; [|done].
  by rewrite build_svg_docs_loop_acc.
Qed.




(** *** The whole build *)

Lemma build_svg_font_inv (src : TTFont) png_dir (font' : TTFont) :
  build_svg_font src png_dir = Ok font' →
  ∃ docs embedded,
    build_svg_docs (glyphOrder src) png_dir = Ok docs ∧
    embedded = font_set (add_empty_outlines src (glyphOrder src)) "SVG "
                 (set_docList (newTable "SVG ") docs) ∧
    svg_embedded src png_dir = Ok embedded ∧
    font' = drop_bitmap_tables embedded.
Proof.
  unfold build_svg_font, svg_embedded.
  destruct (build_svg_docs (glyphOrder src) png_dir) as [docs|e]; simpl_result;
    [|done].
  intros [= <-]. by eexists _, _.
Qed.

Lemma build_svg_font_glyf (src : TTFont) png_dir (font' : TTFont) :
  build_svg_font src png_dir = Ok font' →
  ∃ glyf,
    tables font' !! "glyf" = Some glyf ∧
    tbl_glyphs glyf = Some (stub_missing (glyphOrder src) (outlines src)).
Proof.
  intros (docs & embedded & _ & -> & _ & ->)%build_svg_font_inv.
  destruct (add_empty_outlines_glyf src (glyphOrder src)) as (glyf & Ht & Hg).
  exists glyf. split; [|done].
  rewrite drop_bitmap_tables_lookup.
  rewrite decide_False by apply glyf_not_bitmap_tag.
  simpl. by rewrite lookup_insert_ne.
Qed.

(** C7. After [add_empty_outlines], and in the font that [build_svg_font]
    saves, the glyf table has an outline entry for every glyph of the glyph
    order, with or without a PNG file. *)
Theorem outline_stubbing (src : TTFont) png_dir :
  (∀ order name,
     name ∈ order →
     is_Some (outlines (add_empty_outlines src order) !! name)) ∧
  (∀ font',
     build_svg_font src png_dir = Ok font' →
     ∃ glyf g,
       tables font' !! "glyf" = Some glyf ∧ tbl_glyphs glyf = Some g ∧
       ∀ name, name ∈ glyphOrder src → is_Some (g !! name)).
Proof.
  assert (∀ order name, name ∈ order →
            is_Some (stub_missing order (outlines src) !! name)) as Hstub.
  { intros order name Hin. rewrite stub_missing_lookup.
    destruct (outlines src !! name); [by eexists|].
    destruct (decide (name ∈ order)); [by eexists | done]. }
  split.
  - intros order name Hin. rewrite add_empty_outlines_outlines. by apply Hstub.
  - intros font' (glyf & Ht & Hg)%build_svg_font_glyf.
    exists glyf, (stub_missing (glyphOrder src) (outlines src)).
    split_and!; [done..|]. apply Hstub.
Qed.

(** C10. Stubbing leaves every outline that was present as it was, and
    adds the empty outline exactly for the names of the glyph order that had
    none; this also holds for the font that [build_svg_font] saves. *)
Theorem stubbing_preserves_outlines (src : TTFont) png_dir (name : string) :
  (∀ order,
     outlines (add_empty_outlines src order) !! name =
       match outlines src !! name with
       | Some o => Some o
       | None => if decide (name ∈ order) then Some empty_outline else None
       end) ∧
  (∀ font' o,
     build_svg_font src png_dir = Ok font' →
     outlines src !! name = Some o → outlines font' !! name = Some o).
Proof.
  split.
  - intros order. by rewrite add_empty_outlines_outlines, stub_missing_lookup.
  - intros font' o (glyf & Ht & Hg)%build_svg_font_glyf Ho.
    unfold outlines at 1. rewrite Ht. simpl. rewrite Hg. simpl.
    by rewrite stub_missing_lookup, Ho.
Qed.

(** C8. [build_svg_font] returns whenever the documents can be built; the
    font it saves is [drop_bitmap_tables] applied to a font whose SVG table
    already holds the documents, it has none of the five bitmap tables, and
    every other table, the SVG table included, is as before the stripping.
    On a font without bitmap tables the stripping changes nothing. *)
Theorem bitmap_tables_stripped (src : TTFont) png_dir :
  (is_Ok (build_svg_docs (glyphOrder src) png_dir) →
   is_Ok (build_svg_font src png_dir)) ∧
  (∀ font',
     build_svg_font src png_dir = Ok font' →
     (∀ tag, tag ∈ bitmap_tags → tables font' !! tag = None) ∧
     ∃ embedded docs,
       svg_embedded src png_dir = Ok embedded ∧
       build_svg_docs (glyphOrder src) png_dir = Ok docs ∧
       (tables embedded !! "SVG " ≫= tbl_docList) = Some docs ∧
       font' = drop_bitmap_tables embedded ∧
       (tables font' !! "SVG " ≫= tbl_docList) = Some docs ∧
       ∀ tag, tag ∉ bitmap_tags → tables font' !! tag = tables embedded !! tag) ∧
  (∀ font,
     (∀ tag, tag ∈ bitmap_tags → tables font !! tag = None) →
     drop_bitmap_tables font = font).
Proof.
  split_and!.
  - intros [docs Hdocs]. unfold build_svg_font, svg_embedded.
    rewrite Hdocs. simpl_result. by eexists.
  - intros font' (docs & embedded & Hdocs & Hemb & Hrun & ->)%build_svg_font_inv.
    assert ((tables embedded !! "SVG " ≫= tbl_docList) = Some docs) as Hsvg.
    { rewrite Hemb. simpl. by rewrite lookup_insert_eq. }
    split.
    + intros tag Hin. rewrite drop_bitmap_tables_lookup. by rewrite decide_True.
    + exists embedded, docs. split_and!; [done..| |].
      * rewrite drop_bitmap_tables_lookup.
        by rewrite decide_False by apply SVG_not_bitmap_tag.
      * intros tag Hnin. rewrite drop_bitmap_tables_lookup.
        by rewrite decide_False.
  - intros font Habs. by apply strip_absent.
Qed.

End SvgFont.

(** ** The SVG build on a concrete font *)

Lemma build_font_eight :
  build_svg_font (H := raw_codec) (H0 := std_base64) font_eight png_dir_g7
  = Ok font_eight_svg.
Proof. vm_compute. reflexivity. Qed.



Lemma outline_stubbing_witness :
  ∃ glyf g,
    tables font_eight_svg !! "glyf" = Some glyf ∧ tbl_glyphs glyf = Some g ∧
    ∀ name, name ∈ glyphOrder font_eight → is_Some (g !! name).
Proof.
  exact (proj2 (outline_stubbing (H := raw_codec) (H0 := std_base64)
                  font_eight png_dir_g7)
           font_eight_svg build_font_eight).
Defined.

Lemma bitmap_tables_stripped_witness :
  is_Some (tables font_eight !! "sbix") ∧
  is_Some (tables font_eight !! "EBDT") ∧
  tables font_eight_svg !! "sbix" = None ∧
  tables font_eight_svg !! "CBDT" = None ∧
  tables font_eight_svg !! "EBDT" = None.
Proof.
  pose proof (proj1 (proj1 (proj2 (bitmap_tables_stripped (H := raw_codec)
                                     (H0 := std_base64) font_eight png_dir_g7))
                       font_eight_svg build_font_eight)) as Hgone.
  split_and!.
  - by eexists.
  - by eexists.
  - apply Hgone. apply list_elem_of_here.
  - apply Hgone. apply list_elem_of_further, list_elem_of_here.
  - apply Hgone. do 3 apply list_elem_of_further. apply list_elem_of_here.
Defined.

Lemma stubbing_preserves_outlines_witness :
  outlines font_eight_svg !! "g0" = Some square_outline.
Proof.
  exact (proj2 (stubbing_preserves_outlines (H := raw_codec) (H0 := std_base64)
                  font_eight png_dir_g7 "g0")
           font_eight_svg square_outline build_font_eight eq_refl).
Defined.

(** * Further properties *)

(** ** Strings *)

Lemma string_length_app (s1 s2 : string) :
  String.length (s1 +:+ s2) = String.length s1 + String.length s2.
Proof.
  induction s1 as [|c s1 IH]; [done|].
  change (S (String.length (s1 +:+ s2)) = S (String.length s1 + String.length s2)).
  by rewrite IH.
Qed.

Lemma string_app_inj_l (s1 s2 t : string) : s1 +:+ t = s2 +:+ t → s1 = s2.
Proof.
  revert s2. induction s1 as [|c s1 IH]; intros [|d s2] Heq.
  - done.
  - apply (f_equal String.length) in Heq.
    change (String d s2 +:+ t) with (String d (s2 +:+ t)) in Heq.
    change ("" +:+ t) with t in Heq. simpl in Heq.
    rewrite string_length_app in Heq. lia.
  - apply (f_equal String.length) in Heq.
    change (String c s1 +:+ t) with (String c (s1 +:+ t)) in Heq.
    change ("" +:+ t) with t in Heq. simpl in Heq.
    rewrite string_length_app in Heq. lia.
  - change (String c (s1 +:+ t) = String d (s2 +:+ t)) in Heq.
    injection Heq as -> Heq. f_equal. by apply IH.
Qed.

(** ** More on the extraction *)

Section ExtractionFiles.
Context `{ImageCodec}.

Implicit Types (font : TTFont) (face : Face) (size : Z) (name : string).
Implicit Types (sbix : option Strike) (cbdt : option (gmap string CbdtGlyph)).
Implicit Types (images : gmap string Image) (st : ExtractState).

(** The files after the loop: the file of a visited glyph with an image
    holds its PNG bytes, every other path is as before. *)
Lemma extract_loop_files font face size sbix cbdt names st st' :
  extract_loop font face size sbix cbdt names st = Ok st' →
  (∀ name, name ∈ names →
     ∃ r, extract_glyph font face size sbix cbdt name = Ok r ∧
          st'.2 !! (name +:+ ".png") =
            match r with
            | Some img => Some (image_save_png img)
            | None => st.2 !! (name +:+ ".png")
            end) ∧
  (∀ path, (∀ name, name ∈ names → path ≠ name +:+ ".png") →
           st'.2 !! path = st.2 !! path).
Proof.
  revert st. induction names as [|n names IH]; intros st Hloop; simpl in Hloop.
  - injection Hloop as <-. split; [|done].
    intros name Hin. by apply elem_of_nil in Hin.
  - apply bind_Ok_inv in Hloop as (r & Hr & Hloop).
    assert (∃ st1, extract_loop font face size sbix cbdt names st1 = Ok st' ∧
                   ∀ path, st1.2 !! path =
                     if decide (path = n +:+ ".png") then
                       match r with
                       | Some img => Some (image_save_png img)
                       | None => st.2 !! path
                       end
                     else st.2 !! path) as (st1 & Hrest & Hst1).
    { destruct r as [img|].
      - eexists. split; [exact Hloop|]. intros path. simpl.
        case_decide; [subst; by rewrite lookup_insert_eq
                     | by rewrite lookup_insert_ne].
      - exists st. split; [exact Hloop|]. intros path. by case_decide. }
    destruct (IH st1 Hrest) as [Hin Hout]. split.
    + intros name Hname. destruct (decide (name ∈ names)) as [Hd|Hd].
      * destruct (Hin name Hd) as (r' & Hr' & Hl). exists r'. split; [done|].
        rewrite Hl. destruct r' as [img|]; [done|].
        rewrite Hst1. case_decide as Hp; [|done].
        apply string_app_inj_l in Hp as ->.
        rewrite Hr in Hr'. by injection Hr' as ->.
      * apply elem_of_cons in Hname as [->|Hname]; [|done].
        exists r. split; [done|]. rewrite Hout, Hst1.
        -- rewrite decide_True by done. by destruct r.
        -- intros name Hname Heq. apply string_app_inj_l in Heq as ->. done.
    + intros path Hpath. rewrite Hout, Hst1.
      * rewrite decide_False; [done|]. apply Hpath, list_elem_of_here.
      * intros name Hname. apply Hpath. by apply list_elem_of_further.
Qed.

Lemma extract_images_files font face out_dir size font' images files name :
  extract_images font face out_dir size = Ok (font', images, files) →
  name ∈ glyphOrder font →
  files !! (name +:+ ".png") =
    match images !! name with
    | Some img => Some (image_save_png img)
    | None => out_dir !! (name +:+ ".png")
    end.
Proof.
  intros Hrun Hname. pose proof Hrun as Hrun'.
  apply extract_images_inv in Hrun as [-> Hloop].
  destruct (extract_loop_files _ _ _ _ _ _ _ _ Hloop) as [Hin _].
  destruct (Hin name Hname) as (r & Hr & Hl).
  simpl in Hl. rewrite Hl.
  rewrite (extract_images_lookup _ _ _ _ _ _ _ name Hrun' Hname) in Hr.
  by injection Hr as ->.
Qed.

(** X1. The files of a run: for every glyph of the glyph order, the file
    [<name>.png] holds the PNG bytes of the image recorded for the glyph, or
    is as it was in [out_dir] when the glyph has no image; a path that is
    not [<name>.png] for a glyph of the font is never written; the font is
    returned as it was loaded. *)
Theorem extracted_files font face out_dir size font' images files :
  extract_images font face out_dir size = Ok (font', images, files) →
  font' = font ∧
  (∀ name, name ∈ glyphOrder font →
     files !! (name +:+ ".png") =
       match images !! name with
       | Some img => Some (image_save_png img)
       | None => out_dir !! (name +:+ ".png")
       end) ∧
  (∀ path, (∀ name, name ∈ glyphOrder font → path ≠ name +:+ ".png") →
           files !! path = out_dir !! path).
Proof.
  intros Hrun. split_and!.
  - by apply extract_images_inv in Hrun as [-> _].
  - intros name Hname. by eapply extract_images_files.
  - apply extract_images_inv in Hrun as [_ Hloop].
    apply extract_loop_files in Hloop as [_ Hout]. exact Hout.
Qed.

(** Two runs that agree on [extract_glyph] for every glyph agree. *)
Lemma extract_loop_ext font face face' size size' sbix cbdt names st :
  (∀ name, name ∈ names →
     extract_glyph font face size sbix cbdt name =
     extract_glyph font face' size' sbix cbdt name) →
  extract_loop font face size sbix cbdt names st =
  extract_loop font face' size' sbix cbdt names st.
Proof.
  revert st. induction names as [|n names IH]; intros st Hsame; [done|].
  simpl. rewrite (Hsame n) by apply list_elem_of_here.
  assert (∀ name, name ∈ names →
     extract_glyph font face size sbix cbdt name =
     extract_glyph font face' size' sbix cbdt name) as Hrest.
  { intros name Hin. apply Hsame. by apply list_elem_of_further. }
  destruct (extract_glyph font face' size' sbix cbdt n) as [[img|]|e];
    simpl_result; [by apply IH | by apply IH | done].
Qed.

Lemma extract_images_ext font face face' out_dir size size' :
  (∀ name, name ∈ glyphOrder font →
     extract_glyph font face size (chosen_sbix font) (chosen_cbdt font) name =
     extract_glyph font face' size' (chosen_sbix font) (chosen_cbdt font) name) →
  extract_images font face out_dir size = extract_images font face' out_dir size'.
Proof.
  intros Hsame. unfold extract_images.
  by rewrite (extract_loop_ext _ _ face' _ size' _ _ _ _ Hsame).
Qed.

(** X2. A face with fixed sizes is rendered at its first fixed size: the
    requested size has no effect on the result of the run. *)
Theorem fixed_size_face_ignores_size font face out_dir size size' :
  num_fixed_sizes face ≠ 0%N →
  extract_images font face out_dir size = extract_images font face out_dir size'.
Proof.
  intros Hfixed. apply extract_images_ext. intros name _.
  unfold extract_glyph, render_fallback, render_glyph.
  apply N.eqb_neq in Hfixed. by rewrite Hfixed.
Qed.

End ExtractionFiles.

Lemma run_AB :
  extract_images (H := raw_codec) font_corrupt_cbdt face_1x1 ∅ 128
  = Ok (font_corrupt_cbdt, images_AB, files_AB).
Proof. vm_compute. reflexivity. Qed.

Lemma extracted_files_witness :
  files_AB !! "A.png" = Some (raw_save px_1x1) ∧
  files_AB !! "notes.txt" = None.
Proof.
  destruct (extracted_files (H := raw_codec) font_corrupt_cbdt face_1x1 ∅ 128
              font_corrupt_cbdt images_AB files_AB run_AB) as (_ & Hfiles & Hother).
  split.
  - apply (Hfiles "A"). apply list_elem_of_here.
  - rewrite (Hother "notes.txt"); [done|].
    intros name Hin. simpl in Hin.
    apply elem_of_cons in Hin as [->|Hin]; [done|].
    apply elem_of_cons in Hin as [->|Hin]; [done|].
    by apply elem_of_nil in Hin.
Defined.

Lemma fixed_size_face_ignores_size_witness :
  extract_images (H := raw_codec) font_corrupt_cbdt face_1x1 ∅ 128
  = extract_images (H := raw_codec) font_corrupt_cbdt face_1x1 ∅ 64.
Proof.
  apply (fixed_size_face_ignores_size (H := raw_codec)). discriminate.
Defined.

(** ** More on strike selection *)

Lemma NoDup_fmap_inj_on {A B} (f : A → B) (l : list A) (x y : A) :
  NoDup (f <$> l) → x ∈ l → y ∈ l → f x = f y → x = y.
Proof.
  induction l as [|a l IH]; intros Hnd Hx Hy Hf; [by apply elem_of_nil in Hx|].
  rewrite fmap_cons in Hnd. apply NoDup_cons in Hnd as [Hfresh Hnd].
  apply elem_of_cons in Hx as [->|Hx]; apply elem_of_cons in Hy as [->|Hy].
  - done.
  - destruct Hfresh. rewrite Hf. by apply list_elem_of_fmap_2.
  - destruct Hfresh. rewrite <- Hf. by apply list_elem_of_fmap_2.
  - by apply IH.
Qed.

Lemma py_max_perm {A} (key : A → Z) (l l' : list A) :
  l ≡ₚ l' → NoDup (key <$> l) → py_max key l = py_max key l'.
Proof.
  intros Hperm Hnd. destruct l as [|x rest], l' as [|x' rest'].
  - done.
  - by apply Permutation_nil_cons in Hperm.
  - symmetry in Hperm. by apply Permutation_nil_cons in Hperm.
  - destruct (py_max_first_maximal key x rest) as (i & m & -> & Hi & Hmax & _).
    destruct (py_max_first_maximal key x' rest') as (i' & m' & -> & Hi' & Hmax' & _).
    f_equal.
    assert (m ∈ x :: rest) as Hm by (apply list_elem_of_lookup; eauto).
    assert (m' ∈ x' :: rest') as Hm' by (apply list_elem_of_lookup; eauto).
    assert (m' ∈ x :: rest) as Hm'l by by rewrite Hperm.
    assert (m ∈ x' :: rest') as Hml' by by rewrite <- Hperm.
    apply (NoDup_fmap_inj_on key (x :: rest)); [done..|].
    specialize (Hmax m' Hm'l). specialize (Hmax' m Hml'). lia.
Qed.

(** X5. When the ppem values of the sbix strikes are pairwise distinct, the
    chosen strike does not depend on the iteration order of the [strikes]
    dictionary, nor on its keys. *)
Theorem chosen_sbix_order_independent (font font' : TTFont) (t t' : Table)
    (strikes strikes' : list (Z * Strike)) :
  tables font !! "sbix" = Some t → tbl_strikes t = Some strikes →
  tables font' !! "sbix" = Some t' → tbl_strikes t' = Some strikes' →
  strikes.*2 ≡ₚ strikes'.*2 →
  NoDup (ppem <$> strikes.*2) →
  chosen_sbix font = chosen_sbix font'.
Proof.
  intros Ht Hs Ht' Hs' Hperm Hnd.
  rewrite (chosen_sbix_unfold _ _ _ Ht Hs), (chosen_sbix_unfold _ _ _ Ht' Hs').
  by apply py_max_perm.
Qed.

Lemma chosen_sbix_order_independent_witness :
  chosen_sbix font_three_strikes = chosen_sbix font_three_strikes_sorted.
Proof.
  apply (chosen_sbix_order_independent font_three_strikes font_three_strikes_sorted
           (sbix_font_table
              [(96%Z, strike_of_ppem 96); (128%Z, strike_of_ppem 128);
               (64%Z, strike_of_ppem 64)])
           (sbix_font_table
              [(64%Z, strike_of_ppem 64); (96%Z, strike_of_ppem 96);
               (128%Z, strike_of_ppem 128)])
           [(96%Z, strike_of_ppem 96); (128%Z, strike_of_ppem 128);
            (64%Z, strike_of_ppem 64)]
           [(64%Z, strike_of_ppem 64); (96%Z, strike_of_ppem 96);
            (128%Z, strike_of_ppem 128)]).
  - reflexivity.
  - reflexivity.
  - reflexivity.
  - reflexivity.
  - simpl. apply (perm_trans (l' := [strike_of_ppem 96; strike_of_ppem 64;
                                     strike_of_ppem 128])).
    + apply perm_skip, perm_swap.
    + apply perm_swap.
  - simpl. repeat (apply NoDup_cons; split;
                   [intros Hin; repeat (apply elem_of_cons in Hin as [Hin|Hin];
                                        [discriminate|]);
                    by apply elem_of_nil in Hin|]).
    apply NoDup_nil. done.
Defined.

(** ** More on the sbix embedding *)

Section EmbedMore.
Context `{ImageCodec}.

Implicit Types (font : TTFont) (images : gmap string Image).


Lemma embed_sbix_chosen font images (p r : Z) :
  chosen_sbix (embed_sbix font images p r) = Some (embed_strike images p r).
Proof.
  unfold chosen_sbix, embed_sbix, font_set. simpl.
  by rewrite lookup_insert_eq.
Qed.

(** X6. [embed_sbix] replaces the sbix table wholesale: the result is the
    same whatever sbix table the font had before (so embedding twice keeps
    only the second strike), and the glyph order and every other table are
    untouched. *)
Theorem embed_sbix_replaces font images (p r : Z) :
  glyphOrder (embed_sbix font images p r) = glyphOrder font ∧
  (∀ tag, tag ≠ "sbix" →
     tables (embed_sbix font images p r) !! tag = tables font !! tag) ∧
  (∀ t, embed_sbix (font_set font "sbix" t) images p r
        = embed_sbix font images p r) ∧
  (∀ images' p' r',
     embed_sbix (embed_sbix font images' p' r') images p r
     = embed_sbix font images p r).
Proof.
  assert (∀ t, embed_sbix (font_set font "sbix" t) images p r
               = embed_sbix font images p r) as Hreplace.
  { intros t. unfold embed_sbix, font_set. simpl. by rewrite insert_insert_eq. }
  split_and!.
  - done.
  - intros tag Hne. unfold embed_sbix, font_set. simpl.
    by rewrite lookup_insert_ne.
  - exact Hreplace.
  - intros images' p' r'. unfold embed_sbix at 2. apply Hreplace.
Qed.


(** X8. [main]: it raises exactly when the extraction raises; otherwise the
    font it saves has an sbix strike at ppem 128 and resolution 72 with one
    record per extracted image, every record belongs to a glyph of the font,
    and the bytes of the record are the bytes of the PNG file written for
    that glyph. *)
Theorem main_embeds_written_files font face out_dir :
  (∀ e, extract_images font face out_dir DEFAULT_SIZE = Raise e →
        main font face out_dir = Raise e) ∧
  (∀ font2 files,
     main font face out_dir = Ok (font2, files) →
     ∃ images strike,
       extract_images font face out_dir DEFAULT_SIZE = Ok (font, images, files) ∧
       font2 = embed_sbix font images 128 72 ∧
       chosen_sbix font2 = Some strike ∧
       ppem strike = 128%Z ∧ resolution strike = 72%Z ∧
       dom (glyphs strike) = dom images ∧
       ∀ name g, glyphs strike !! name = Some g →
         name ∈ glyphOrder font ∧
         graphicType g = "png " ∧
         files !! (name +:+ ".png") = Some (imageData g)).
Proof.
  split.
  - intros e He. unfold main. by rewrite He.
  - intros font2 files Hmain. unfold main in Hmain.
    destruct (extract_images font face out_dir DEFAULT_SIZE)
      as [[[font1 images] files1]|e] eqn:Hrun; [|done].
    simpl_result. injection Hmain as <- <-.
    assert (font1 = font) as -> by by apply extract_images_inv in Hrun as [-> _].
    pose proof (λ name, extract_images_files _ _ _ _ _ _ _ name Hrun) as Hfiles.
    destruct (embed_strike_spec images 128 72) as (Hp & Hr & Hg).
    exists images, (embed_strike images 128 72). split_and!; try done.
    + apply embed_sbix_chosen.
    + apply set_eq. intros name. rewrite !elem_of_dom, Hg.
      by rewrite fmap_is_Some.
    + intros name g Hname. rewrite Hg in Hname.
      destruct (images !! name) as [img|] eqn:Himg; [|done].
      injection Hname as <-.
      assert (name ∈ glyphOrder font) as Hin.
      { destruct (decide (name ∈ glyphOrder font)) as [|Hnin]; [done|].
        pose proof Hrun as Hrun'.
        apply extract_images_inv in Hrun' as [_ Hloop].
        apply extract_loop_lookup in Hloop as [_ Hout].
        specialize (Hout name Hnin). simpl in Hout.
        rewrite Hout, lookup_empty in Himg. done. }
      split_and!; [done..|]. rewrite (Hfiles name Hin), Himg. done.
Qed.

End EmbedMore.

Lemma main_AB :
  main (H := raw_codec) font_corrupt_cbdt face_1x1 ∅
  = Ok (embed_sbix (H := raw_codec) font_corrupt_cbdt images_AB 128 72, files_AB).
Proof. vm_compute. reflexivity. Qed.

Lemma embed_sbix_replaces_witness :
  tables (embed_sbix (H := raw_codec) font_corrupt_cbdt images_AB 128 72) !! "CBDT"
  = tables font_corrupt_cbdt !! "CBDT".
Proof.
  apply (proj1 (proj2 (embed_sbix_replaces (H := raw_codec) font_corrupt_cbdt
                         images_AB 128 72))).
  discriminate.
Defined.

Lemma main_embeds_written_files_witness :
  ∃ images strike,
    extract_images (H := raw_codec) font_corrupt_cbdt face_1x1 ∅ DEFAULT_SIZE
      = Ok (font_corrupt_cbdt, images, files_AB) ∧
    embed_sbix (H := raw_codec) font_corrupt_cbdt images_AB 128 72
      = embed_sbix (H := raw_codec) font_corrupt_cbdt images 128 72 ∧
    chosen_sbix (embed_sbix (H := raw_codec) font_corrupt_cbdt images_AB 128 72)
      = Some strike ∧
    ppem strike = 128%Z ∧ resolution strike = 72%Z ∧
    dom (glyphs strike) = dom images ∧
    ∀ name g, glyphs strike !! name = Some g →
      name ∈ glyphOrder font_corrupt_cbdt ∧
      graphicType g = "png " ∧
      files_AB !! (name +:+ ".png") = Some (imageData g).
Proof.
  exact (proj2 (main_embeds_written_files (H := raw_codec) font_corrupt_cbdt
                  face_1x1 ∅)
           _ files_AB main_AB).
Defined.

(** ** More on outline stubbing *)

Lemma font_eq (a b : TTFont) :
  glyphOrder a = glyphOrder b → tables a = tables b → a = b.
Proof. destruct a, b. simpl. by intros -> ->. Qed.

Lemma add_empty_outlines_lookup (font : TTFont) (order : list string)
    (tag : string) :
  tables (add_empty_outlines font order) !! tag =
    if decide (tag = "loca") then Some (newTable "loca")
    else if decide (tag = "glyf") then
      Some (set_glyphs (default (newTable "glyf") (tables font !! "glyf"))
                       (stub_missing order (outlines font)))
    else tables font !! tag.
Proof.
  unfold add_empty_outlines, outlines, font_has.
  case_bool_decide as Hglyf.
  - destruct Hglyf as [glyf Hglyf]. rewrite Hglyf. simpl.
    destruct (decide (tag = "loca")) as [->|Hloca];
      [by rewrite lookup_insert_eq|].
    rewrite lookup_insert_ne by done.
    destruct (decide (tag = "glyf")) as [->|Hg];
      [by rewrite lookup_insert_eq | by rewrite lookup_insert_ne].
  - apply eq_None_not_Some in Hglyf. rewrite Hglyf. simpl.
    rewrite lookup_insert_eq. simpl.
    destruct (decide (tag = "loca")) as [->|Hloca];
      [by rewrite lookup_insert_eq|].
    rewrite lookup_insert_ne by done.
    destruct (decide (tag = "glyf")) as [->|Hg];
      [by rewrite lookup_insert_eq|].
    by rewrite !lookup_insert_ne.
Qed.

Lemma stub_missing_idemp (order : list string) (g : gmap string Glyph) :
  stub_missing order (stub_missing order g) = stub_missing order g.
Proof.
  apply map_eq. intros name. rewrite !stub_missing_lookup.
  destruct (g !! name); [done|]. by destruct (decide (name ∈ order)).
Qed.

Lemma stub_missing_dom (order : list string) (g : gmap string Glyph) :
  dom (stub_missing order g) = dom g ∪ list_to_set order.
Proof.
  apply set_eq. intros name.
  rewrite elem_of_union, elem_of_list_to_set, !elem_of_dom, stub_missing_lookup.
  destruct (g !! name) as [o|].
  - split; [left|]; by eexists.
  - destruct (decide (name ∈ order)) as [Hin|Hnin].
    + split; [by right | by eexists].
    + split; [by intros [? ?] | intros [[? ?]|?]; done].
Qed.

(** X9. [add_empty_outlines] touches only the glyf and loca tables: the
    glyph order and every other table are unchanged, an existing glyf table
    keeps everything but its [glyphs] dictionary, and loca is replaced by a
    fresh table whatever it was.  The outlines afterwards are those before
    plus the names of the glyph order, and running it again changes
    nothing. *)
Theorem add_empty_outlines_frame (font : TTFont) (order : list string) :
  glyphOrder (add_empty_outlines font order) = glyphOrder font ∧
  (∀ tag, tag ≠ "glyf" → tag ≠ "loca" →
     tables (add_empty_outlines font order) !! tag = tables font !! tag) ∧
  (∀ glyf, tables font !! "glyf" = Some glyf →
     tables (add_empty_outlines font order) !! "glyf" =
       Some (set_glyphs glyf (stub_missing order (default ∅ (tbl_glyphs glyf))))) ∧
  tables (add_empty_outlines font order) !! "loca" = Some (newTable "loca") ∧
  dom (outlines (add_empty_outlines font order)) =
    dom (outlines font) ∪ list_to_set order ∧
  add_empty_outlines (add_empty_outlines font order) order =
    add_empty_outlines font order.
Proof.
  split_and!.
  - apply add_empty_outlines_order.
  - intros tag Hg Hl. rewrite add_empty_outlines_lookup.
    by rewrite !decide_False by done.
  - intros glyf Hglyf. rewrite add_empty_outlines_lookup.
    rewrite decide_False, decide_True by done.
    unfold outlines. by rewrite Hglyf.
  - by rewrite add_empty_outlines_lookup, decide_True.
  - by rewrite add_empty_outlines_outlines, stub_missing_dom.
  - apply font_eq; [by rewrite !add_empty_outlines_order|].
    apply map_eq. intros tag. rewrite (add_empty_outlines_lookup (add_empty_outlines _ _)).
    rewrite add_empty_outlines_outlines, stub_missing_idemp.
    rewrite !add_empty_outlines_lookup.
    destruct (decide (tag = "loca")); [done|].
    destruct (decide (tag = "glyf")); [|done].
    rewrite decide_False, decide_True by done. done.
Qed.

Lemma add_empty_outlines_frame_witness :
  tables (add_empty_outlines font_eight (glyphOrder font_eight)) !! "sbix"
    = tables font_eight !! "sbix" ∧
  tables (add_empty_outlines font_eight (glyphOrder font_eight)) !! "glyf"
    = Some (set_glyphs (set_glyphs (newTable "glyf") {["g0" := square_outline]})
              (stub_missing (glyphOrder font_eight) {["g0" := square_outline]})).
Proof.
  destruct (add_empty_outlines_frame font_eight (glyphOrder font_eight))
    as (_ & Hother & Hglyf & _).
  split.
  - apply Hother; discriminate.
  - exact (Hglyf (set_glyphs (newTable "glyf") {["g0" := square_outline]})
             eq_refl).
Defined.

(** ** More on the SVG documents *)

Section SvgDocsMore.
Context `{ImageCodec} `{Base64}.

Implicit Types (png_dir : gmap string bytes) (docs : list SVGDoc).

(** The loop can only fail on a file that exists and cannot be opened. *)
Lemma build_svg_docs_loop_raise_inv png_dir gid names e :
  build_svg_docs_loop png_dir gid names [] = Raise e →
  e = UnidentifiedImageError ∧
  ∃ name content,
    name ∈ names ∧ png_dir !! (name +:+ ".png") = Some content ∧
    image_size content = None.
Proof.
  revert gid. induction names as [|name rest IH]; intros gid Hloop; [done|].
  rewrite build_svg_docs_loop_cons in Hloop.
  destruct (png_dir !! (name +:+ ".png")) as [content|] eqn:Hfile.
  - destruct (image_size content) as [[w h]|] eqn:Hsize.
    + destruct (build_svg_docs_loop png_dir (S gid) rest []) as [tail|e'] eqn:Ht;
        simpl_result; [done|].
      injection Hloop as <-.
      destruct (IH (S gid) Ht) as (-> & n & c & Hin & Hc & Hs).
      split; [done|]. exists n, c. split_and!; [|done..].
      by apply list_elem_of_further.
    + injection Hloop as <-. split; [done|].
      exists name, content. split_and!; [|done..]. apply list_elem_of_here.
  - destruct (IH (S gid) Hloop) as (-> & n & c & Hin & Hc & Hs).
    split; [done|]. exists n, c. split_and!; [|done..].
    by apply list_elem_of_further.
Qed.

Lemma build_svg_docs_loop_raise png_dir gid names name content :
  name ∈ names → png_dir !! (name +:+ ".png") = Some content →
  image_size content = None →
  build_svg_docs_loop png_dir gid names [] = Raise UnidentifiedImageError.
Proof.
  intros Hin Hfile Hsize. revert gid.
  induction names as [|n rest IH]; intros gid; [by apply elem_of_nil in Hin|].
  rewrite build_svg_docs_loop_cons.
  destruct (decide (n = name)) as [->|Hne].
  - by rewrite Hfile, Hsize.
  - apply elem_of_cons in Hin as [->|Hin]; [done|].
    rewrite (IH Hin (S gid)).
    destruct (png_dir !! (n +:+ ".png")) as [c|]; [|done].
    by destruct (image_size c) as [[w h]|].
Qed.

(** X10. A PNG file that exists for a glyph but cannot be opened is fatal,
    unlike a missing file: [build_svg_docs] and [build_svg_font] raise, and
    this is the only way they can raise. *)
Theorem unreadable_png_is_fatal (src : TTFont) png_dir :
  (∀ name content,
     name ∈ glyphOrder src → png_dir !! (name +:+ ".png") = Some content →
     image_size content = None →
     build_svg_docs (glyphOrder src) png_dir = Raise UnidentifiedImageError ∧
     build_svg_font src png_dir = Raise UnidentifiedImageError) ∧
  (∀ e, build_svg_font src png_dir = Raise e →
     ∃ name content,
       name ∈ glyphOrder src ∧ png_dir !! (name +:+ ".png") = Some content ∧
       image_size content = None).
Proof.
  split.
  - intros name content Hin Hfile Hsize.
    assert (build_svg_docs (glyphOrder src) png_dir = Raise UnidentifiedImageError)
      as Hdocs by by eapply build_svg_docs_loop_raise.
    split; [done|]. unfold build_svg_font, svg_embedded. by rewrite Hdocs.
  - intros e Hraise. unfold build_svg_font, svg_embedded in Hraise.
    destruct (build_svg_docs (glyphOrder src) png_dir) as [docs|e'] eqn:Hdocs;
      [done|].
    by apply build_svg_docs_loop_raise_inv in Hdocs as [_ ?].
Qed.

(** X11. There is exactly one document per position of the glyph order
    whose glyph has a file: names without file, and files without glyph,
    contribute nothing. *)
Theorem svg_docs_count (glyph_order : list string) png_dir docs :
  build_svg_docs glyph_order png_dir = Ok docs →
  length docs =
    length (filter (λ name, is_Some (png_dir !! (name +:+ ".png"))) glyph_order).
Proof.
  unfold build_svg_docs. generalize 0. revert docs.
  induction glyph_order as [|name rest IH]; intros docs gid Hloop.
  - by injection Hloop as <-.
  - rewrite build_svg_docs_loop_cons in Hloop.
    destruct (png_dir !! (name +:+ ".png")) as [content|] eqn:Hfile.
    + destruct (image_size content) as [[w h]|]; [|done].
      destruct (build_svg_docs_loop png_dir (S gid) rest []) as [tail|] eqn:Ht;
        simpl_result; [|done].
      injection Hloop as <-.
      rewrite filter_cons_True by (rewrite Hfile; by eexists).
      simpl. f_equal. by apply (IH tail (S gid)).
    + rewrite filter_cons_False by (rewrite Hfile; by intros [? ?]).
      by apply (IH docs (S gid)).
Qed.

(** X12. Only the files named after glyphs are read: two directories that
    agree on [<name>.png] for every glyph of the glyph order give the same
    result. *)
Theorem svg_docs_local (glyph_order : list string) png_dir png_dir' :
  (∀ name, name ∈ glyph_order →
     png_dir !! (name +:+ ".png") = png_dir' !! (name +:+ ".png")) →
  build_svg_docs glyph_order png_dir = build_svg_docs glyph_order png_dir'.
Proof.
  unfold build_svg_docs. generalize 0 (@nil SVGDoc).
  induction glyph_order as [|name rest IH]; intros gid docs Hsame; [done|].
  simpl. rewrite <- (Hsame name) by apply list_elem_of_here.
  assert (∀ n, n ∈ rest →
            png_dir !! (n +:+ ".png") = png_dir' !! (n +:+ ".png")) as Hrest.
  { intros n Hin. apply Hsame. by apply list_elem_of_further. }
  destruct (png_dir !! (name +:+ ".png")) as [content|]; [|by apply IH].
  destruct (image_size content) as [[w h]|]; [|done]. by apply IH.
Qed.

End SvgDocsMore.

Lemma docs_g7 :
  build_svg_docs (H := raw_codec) (H0 := std_base64)
    (glyphOrder font_eight) png_dir_g7 = Ok [(svg_g7, 7, 7)].
Proof. vm_compute. reflexivity. Qed.

Lemma unreadable_png_is_fatal_witness :
  build_svg_docs (H := raw_codec) (H0 := std_base64)
    (glyphOrder font_eight) png_dir_corrupt = Raise UnidentifiedImageError ∧
  build_svg_font (H := raw_codec) (H0 := std_base64) font_eight png_dir_corrupt
    = Raise UnidentifiedImageError.
Proof.
  apply (proj1 (unreadable_png_is_fatal (H := raw_codec) (H0 := std_base64)
                  font_eight png_dir_corrupt) "g7" [x00]).
  - apply list_elem_of_lookup. by exists 7.
  - reflexivity.
  - reflexivity.
Defined.

Lemma svg_docs_count_witness :
  length [(svg_g7, 7, 7)] =
  length (filter (λ name, is_Some (png_dir_g7 !! (name +:+ ".png")))
                 (glyphOrder font_eight)).
Proof.
  exact (svg_docs_count (H := raw_codec) (H0 := std_base64)
           (glyphOrder font_eight) png_dir_g7 [(svg_g7, 7, 7)] docs_g7).
Defined.

Lemma png_dir_g7_extra_agrees (name : string) :
  name ∈ glyphOrder font_eight →
  png_dir_g7 !! (name +:+ ".png") = png_dir_g7_extra !! (name +:+ ".png").
Proof.
  intros Hin. unfold png_dir_g7_extra. rewrite lookup_insert_ne; [done|].
  simpl in Hin.
  repeat (apply elem_of_cons in Hin as [->|Hin]; [by vm_compute|]).
  by apply elem_of_nil in Hin.
Qed.

Lemma svg_docs_local_witness :
  build_svg_docs (H := raw_codec) (H0 := std_base64)
    (glyphOrder font_eight) png_dir_g7
  = build_svg_docs (H := raw_codec) (H0 := std_base64)
      (glyphOrder font_eight) png_dir_g7_extra.
Proof.
  exact (svg_docs_local (H := raw_codec) (H0 := std_base64)
           (glyphOrder font_eight) png_dir_g7 png_dir_g7_extra
           png_dir_g7_extra_agrees).
Defined.

(** ** More on the SVG build *)

Lemma strip_order (tags : list string) (font : TTFont) :
  glyphOrder (fold_left (λ font tag, if font_has font tag then font_del font tag
                                     else font) tags font) = glyphOrder font.
Proof.
  revert font. induction tags as [|t tags IH]; intros font; [done|].
  cbn [fold_left]. rewrite IH. by destruct (font_has font t).
Qed.

Lemma loca_not_bitmap_tag : "loca" ∉ bitmap_tags.
Proof.
  unfold bitmap_tags. intros Hin.
  repeat (apply elem_of_cons in Hin as [?|Hin]; [done|]).
  by apply elem_of_nil in Hin.
Qed.

Lemma svg_build_order (font : TTFont) (order : list string) (tag : string)
    (t : Table) :
  glyphOrder (drop_bitmap_tables (font_set (add_empty_outlines font order) tag t))
  = glyphOrder font.
Proof.
  unfold drop_bitmap_tables. rewrite strip_order.
  change (glyphOrder (add_empty_outlines font order) = glyphOrder font).
  apply add_empty_outlines_order.
Qed.

(** The tables of the font the build saves, for a given document list. *)
Lemma svg_build_lookup (font : TTFont) (docs : list SVGDoc) (tag : string) :
  tables (drop_bitmap_tables
            (font_set (add_empty_outlines font (glyphOrder font)) "SVG "
                      (set_docList (newTable "SVG ") docs))) !! tag =
    if decide (tag ∈ bitmap_tags) then None
    else if decide (tag = "SVG ") then Some (set_docList (newTable "SVG ") docs)
    else if decide (tag = "loca") then Some (newTable "loca")
    else if decide (tag = "glyf") then
      Some (set_glyphs (default (newTable "glyf") (tables font !! "glyf"))
                       (stub_missing (glyphOrder font) (outlines font)))
    else tables font !! tag.
Proof.
  rewrite drop_bitmap_tables_lookup.
  destruct (decide (tag ∈ bitmap_tags)); [done|]. simpl.
  destruct (decide (tag = "SVG ")) as [->|Hsvg]; [by rewrite lookup_insert_eq|].
  rewrite lookup_insert_ne by done. apply add_empty_outlines_lookup.
Qed.

Section BuildMore.
Context `{ImageCodec} `{Base64}.

Implicit Types (png_dir : gmap string bytes).

(** X13. The font [build_svg_font] saves keeps the glyph order and every
    table other than glyf, loca, SVG and the five bitmap tables as they were
    in the source; loca is a fresh table and the SVG table is a fresh table
    that holds the documents, whatever the source had under these tags. *)
Theorem build_svg_font_frame (src : TTFont) png_dir (font' : TTFont) :
  build_svg_font src png_dir = Ok font' →
  glyphOrder font' = glyphOrder src ∧
  tables font' !! "loca" = Some (newTable "loca") ∧
  (∃ docs, build_svg_docs (glyphOrder src) png_dir = Ok docs ∧
           tables font' !! "SVG " = Some (set_docList (newTable "SVG ") docs)) ∧
  (∀ tag, tag ∉ bitmap_tags → tag ≠ "glyf" → tag ≠ "loca" → tag ≠ "SVG " →
          tables font' !! tag = tables src !! tag).
Proof.
  intros (docs & embedded & Hdocs & -> & _ & ->)%build_svg_font_inv.
  split_and!.
  - apply svg_build_order.
  - rewrite svg_build_lookup.
    rewrite decide_False by apply loca_not_bitmap_tag.
    by rewrite decide_False, decide_True.
  - exists docs. split; [done|]. rewrite svg_build_lookup.
    rewrite decide_False by apply SVG_not_bitmap_tag. by rewrite decide_True.
  - intros tag Hb Hg Hl Hs. rewrite svg_build_lookup.
    by rewrite !decide_False.
Qed.

(** X14. Building again from the saved font with the same directory gives
    the same font: the build is idempotent. *)
Theorem build_svg_font_idempotent (src : TTFont) png_dir (font' : TTFont) :
  build_svg_font src png_dir = Ok font' →
  build_svg_font font' png_dir = Ok font'.
Proof.
  intros (docs & embedded & Hdocs & -> & _ & ->)%build_svg_font_inv.
  set (font' := drop_bitmap_tables _).
  assert (glyphOrder font' = glyphOrder src) as Horder.
  { apply svg_build_order. }
  assert (∀ tag, tables font' !! tag =
                 tables (drop_bitmap_tables
                           (font_set (add_empty_outlines src (glyphOrder src))
                              "SVG " (set_docList (newTable "SVG ") docs))) !! tag)
    as Hfont' by done.
  unfold build_svg_font, svg_embedded. rewrite Horder, Hdocs. simpl_result.
  f_equal. apply font_eq.
  - by rewrite svg_build_order.
  - apply map_eq. intros tag.
    pose proof (svg_build_lookup font' docs tag) as Hl.
    rewrite Horder in Hl. rewrite Hl. clear Hl.
    rewrite (Hfont' tag), svg_build_lookup.
    destruct (decide (tag ∈ bitmap_tags)); [done|].
    destruct (decide (tag = "SVG ")); [done|].
    destruct (decide (tag = "loca")); [done|].
    destruct (decide (tag = "glyf")) as [->|Hg].
    + unfold outlines at 1.
      rewrite (Hfont' "glyf"), svg_build_lookup.
      rewrite decide_False by apply glyf_not_bitmap_tag.
      rewrite !decide_False, decide_True by done. simpl.
      by rewrite stub_missing_idemp.
    + done.
Qed.


End BuildMore.

Lemma build_svg_font_frame_witness :
  glyphOrder font_eight_svg = glyphOrder font_eight ∧
  tables font_eight_svg !! "loca" = Some (newTable "loca") ∧
  (∃ docs,
     build_svg_docs (H := raw_codec) (H0 := std_base64)
       (glyphOrder font_eight) png_dir_g7 = Ok docs ∧
     tables font_eight_svg !! "SVG " = Some (set_docList (newTable "SVG ") docs)) ∧
  (∀ tag, tag ∉ bitmap_tags → tag ≠ "glyf" → tag ≠ "loca" → tag ≠ "SVG " →
          tables font_eight_svg !! tag = tables font_eight !! tag).
Proof.
  exact (build_svg_font_frame (H := raw_codec) (H0 := std_base64)
           font_eight png_dir_g7 font_eight_svg build_font_eight).
Defined.

Lemma build_svg_font_idempotent_witness :
  build_svg_font (H := raw_codec) (H0 := std_base64) font_eight_svg png_dir_g7
  = Ok font_eight_svg.
Proof.
  exact (build_svg_font_idempotent (H := raw_codec) (H0 := std_base64)
           font_eight png_dir_g7 font_eight_svg build_font_eight).
Defined.



(** ** More on CBDT records *)

Lemma byte_of_to_N (k : N) : (k < 256)%N → Byte.to_N (byte_of k) = k.
Proof.
  intros Hk. unfold byte_of. destruct (Byte.of_N k) as [b|] eqn:E.
  - by apply Byte.to_of_N.
  - apply Byte.of_N_None_iff in E. lia.
Qed.

Lemma be_value_uint32_be_bytes (n : N) :
  (n < 4294967296)%N → be_value (uint32_be_bytes n) = n.
Proof.
  intros Hn. unfold uint32_be_bytes. rewrite be_value_4. unfold uint32_be.
  rewrite !byte_of_to_N by (apply N.mod_lt; lia).
  pose proof (N.div_mod n 256) as H0.
  pose proof (N.div_mod (n / 256) 256) as H1.
  pose proof (N.div_mod (n / 65536) 256) as H2.
  pose proof (N.div_mod (n / 16777216) 256) as H3.
  assert (n / 256 / 256 = n / 65536)%N as E1 by (by rewrite N.Div0.div_div).
  assert (n / 65536 / 256 = n / 16777216)%N as E2 by (by rewrite N.Div0.div_div).
  assert (n / 16777216 / 256 = 0)%N as E3.
  { rewrite N.Div0.div_div by lia. apply N.div_small. lia. }
  rewrite E1 in H1. rewrite E2 in H2. rewrite E3 in H3. lia.
Qed.

(** X16. A record made of any nine header bytes in which the PNG signature
    does not occur, followed by a PNG, decodes to exactly that PNG, whatever
    the length field in the header says. *)
Theorem cbdt_png_record (header png : bytes) :
  length header = 9 →
  (∀ j, ¬ occurs_at png_magic header j) →
  startswith png_magic png = true →
  cbdt_blob (header ++ png) = Ok png.
Proof.
  intros Hlen Hno Hpng.
  do 9 (destruct header as [|? header]; [done|]).
  destruct header; [|done]. clear Hlen.
  apply startswith_true in Hpng.
  do 4 (destruct png as [|? png]; [done|]).
  injection Hpng as -> -> -> ->.
  unfold cbdt_blob. rewrite (bytes_find_first _ _ 9); [done|done|].
  intros j Hj Hocc.
  do 6 (destruct j as [|j];
        [match type of Hocc with occurs_at _ _ ?k => exact (Hno k Hocc) end|]).
  do 3 (destruct j as [|j]; [discriminate Hocc|]).
  lia.
Qed.

(** X17. A record without PNG signature, made of five metric bytes, the
    big-endian length of the payload, the payload and any trailing bytes,
    decodes to exactly the payload. *)
Theorem cbdt_length_prefixed_record (metrics payload trailing : bytes) :
  length metrics = 5 →
  (N.of_nat (length payload) < 4294967296)%N →
  (∀ j, ¬ occurs_at png_magic
          (metrics ++ uint32_be_bytes (N.of_nat (length payload)) ++
           payload ++ trailing) j) →
  cbdt_blob (metrics ++ uint32_be_bytes (N.of_nat (length payload)) ++
             payload ++ trailing) = Ok payload.
Proof.
  intros Hlen Hsmall Hno.
  rewrite (cbdt_blob_no_magic _ (no_occurrence_find _ _ Hno)).
  do 5 (destruct metrics as [|? metrics]; [done|]).
  destruct metrics; [|done]. clear Hlen Hno.
  change (take 4 (drop 5 _)) with (uint32_be_bytes (N.of_nat (length payload))).
  unfold struct_unpack_be_I. cbn [length uint32_be_bytes Nat.eqb].
  change [byte_of _; byte_of _; byte_of _; byte_of _]
    with (uint32_be_bytes (N.of_nat (length payload))).
  rewrite be_value_uint32_be_bytes by done. simpl_result.
  rewrite Nat2N.id.
  change (drop 9 _) with (payload ++ trailing).
  by rewrite take_app_length.
Qed.

Lemma cbdt_png_record_witness : cbdt_blob record_2x1 = Ok (raw_save img_2x1).
Proof.
  apply (cbdt_png_record [x00; x00; x00; x00; x00; x00; x00; x00; x08]
           (raw_save img_2x1)).
  - reflexivity.
  - exact (bytes_find_None png_magic
             [x00; x00; x00; x00; x00; x00; x00; x00; x08] eq_refl).
  - reflexivity.
Defined.

Lemma cbdt_length_prefixed_record_witness :
  cbdt_blob record_jpeg = Ok [xff; xd8; xff].
Proof.
  apply (cbdt_length_prefixed_record [x01; x02; x03; x04; x05] [xff; xd8; xff]
           [x00; x00]).
  - reflexivity.
  - reflexivity.
  - exact (bytes_find_None png_magic record_jpeg eq_refl).
Defined.
